(** * The deployment splitter's reconciliation core

    A shallow embedding of [pkg/reconciler/deployment/controller.go]: the
    two rate-limited work queues, the event handlers that feed them, the
    two worker loops, [handleErr], [process] and [processCluster].

    The controller is stateful Go code.  Its state (the two queues and the
    informer cache that [indexer] and [lister] read) is threaded through a
    small state monad; every call that leaves the controller (to a queue,
    to the API client, to [runtime.HandleError]) is appended to a trace, so
    that statements such as "exactly one Update call" are statements about
    that trace. *)

From Stdlib Require Import ZArith.
From stdpp Require Import base option list strings gmap sets.

Open Scope string_scope.
Open Scope list_scope.
Open Scope nat_scope.

(** ** Data model *)

(** Go's [error] interface; the [nil] error is [None] of [option error]. *)
Inductive error := Err (msg : string).

#[global] Instance error_eq_dec : EqDecision error.
Proof. solve_decision. Defined.

(** [metav1.ObjectMeta], reduced to the fields the controller reads.
    [Labels] is a Go map, which may be [nil] ([None]) or allocated. *)
Record ObjectMeta := {
  Namespace : string;
  Name : string;
  Labels : option (gmap string string) }.

(** [appsv1.DeploymentSpec]; [Replicas] is a [*int32]. *)
Record DeploymentSpec := { SpecReplicas : option Z }.

(** [appsv1.DeploymentStatus]. *)
Record DeploymentStatus := { Replicas : Z; ReadyReplicas : Z }.

(** [appsv1.Deployment]. *)
Record Deployment := {
  Metadata : ObjectMeta;
  Spec : DeploymentSpec;
  Status : DeploymentStatus }.

(** A topology site, [clusterv1alpha1.Cluster]; only its identity matters. *)
Record Cluster := { ClusterMetadata : ObjectMeta }.

#[global] Instance ObjectMeta_eq_dec : EqDecision ObjectMeta.
Proof. solve_decision. Defined.
#[global] Instance DeploymentSpec_eq_dec : EqDecision DeploymentSpec.
Proof. solve_decision. Defined.
#[global] Instance DeploymentStatus_eq_dec : EqDecision DeploymentStatus.
Proof. solve_decision. Defined.
#[global] Instance Deployment_eq_dec : EqDecision Deployment.
Proof. solve_decision. Defined.
#[global] Instance Cluster_eq_dec : EqDecision Cluster.
Proof. solve_decision. Defined.

(** The [interface{}] values the informers hand to the event handlers: a
    deployment, a cluster, or a [cache.DeletedFinalStateUnknown] tombstone,
    which carries no object metadata of its own. *)
Inductive Object :=
| ObjDeployment (d : Deployment)
| ObjCluster (cl : Cluster)
| ObjTombstone (key : string).

(** Field updates written through a pointer. *)
Definition setLabels (l : option (gmap string string)) (d : Deployment) : Deployment :=
  {| Metadata := {| Namespace := Namespace (Metadata d);
                    Name := Name (Metadata d);
                    Labels := l |};
     Spec := Spec d;
     Status := Status d |}.

Definition setStatus (s : DeploymentStatus) (d : Deployment) : Deployment :=
  {| Metadata := Metadata d; Spec := Spec d; Status := s |}.

(** ** [equality.Semantic.DeepEqual] *)

(** Modelled from the spec: the semantic equality of the API machinery,
    which is not part of this repository: deep, field by field, not by
    reference; an empty map is the same as a nil map. *)
Module equality.

Definition labelsEqual (a b : option (gmap string string)) : bool :=
  bool_decide (default ∅ a = default ∅ b).

Definition DeepEqualMeta (a b : ObjectMeta) : bool :=
  bool_decide (Namespace a = Namespace b)
  && bool_decide (Name a = Name b)
  && labelsEqual (Labels a) (Labels b).

Definition DeepEqualSpec (a b : DeploymentSpec) : bool :=
  bool_decide (SpecReplicas a = SpecReplicas b).

Definition DeepEqualStatus (a b : DeploymentStatus) : bool :=
  bool_decide (Replicas a = Replicas b)
  && bool_decide (ReadyReplicas a = ReadyReplicas b).

Definition DeepEqual (a b : Deployment) : bool :=
  DeepEqualMeta (Metadata a) (Metadata b)
  && DeepEqualSpec (Spec a) (Spec b)
  && DeepEqualStatus (Status a) (Status b).

End equality.

(** ** [cache.MetaNamespaceKeyFunc] *)

(** Modelled from the spec: the key function of the cache library, which is
    not part of this repository.  The key is derived from namespace and
    name; an object without identity metadata yields an error. *)
Definition metaKey (m : ObjectMeta) : string :=
  if bool_decide (Namespace m = "") then Name m
  else Namespace m +:+ "/" +:+ Name m.

Definition MetaNamespaceKeyFunc (obj : Object) : string + error :=
  match obj with
  | ObjDeployment d => inl (metaKey (Metadata d))
  | ObjCluster cl => inl (metaKey (ClusterMetadata cl))
  | ObjTombstone _ => inr (Err "object has no meta")
  end.

(** ** The rate-limited work queue *)

(** Modelled from the spec: the work queue of the client library, which is
    not part of this repository (section 4.1 of the specification: pending,
    processing and dirty keys, a per-key retry counter, delayed adds). *)
Module workqueue.

Record RateLimitingInterface := {
  items : list string;          (* pending keys, in delivery order *)
  dirty : gset string;          (* keys that need processing *)
  processing : gset string;     (* keys handed out by Get, not yet Done *)
  waiting : list string;        (* rate-limited adds whose delay runs *)
  failures : gmap string nat;   (* per-key retry counter *)
  shuttingDown : bool }.

Definition NewRateLimitingQueue : RateLimitingInterface :=
  {| items := []; dirty := ∅; processing := ∅; waiting := [];
     failures := ∅; shuttingDown := false |}.

Definition Add (item : string) (q : RateLimitingInterface) : RateLimitingInterface :=
  if shuttingDown q then q
  else if bool_decide (item ∈ dirty q) then q
  else if bool_decide (item ∈ processing q) then
    {| items := items q; dirty := {[item]} ∪ dirty q;
       processing := processing q; waiting := waiting q;
       failures := failures q; shuttingDown := shuttingDown q |}
  else
    {| items := items q ++ [item]; dirty := {[item]} ∪ dirty q;
       processing := processing q; waiting := waiting q;
       failures := failures q; shuttingDown := shuttingDown q |}.

(** [NumRequeues]: the retry counter, zero for an unknown key. *)
Definition NumRequeues (item : string) (q : RateLimitingInterface) : nat :=
  default 0 (failures q !! item).

(** [AddRateLimited]: the rate limiter counts the request, and the key
    becomes pending only once its delay has run. *)
Definition AddRateLimited (item : string) (q : RateLimitingInterface) : RateLimitingInterface :=
  {| items := items q; dirty := dirty q; processing := processing q;
     waiting := if shuttingDown q then waiting q else waiting q ++ [item];
     failures := <[item := S (NumRequeues item q)]> (failures q);
     shuttingDown := shuttingDown q |}.

Definition Forget (item : string) (q : RateLimitingInterface) : RateLimitingInterface :=
  {| items := items q; dirty := dirty q; processing := processing q;
     waiting := waiting q; failures := delete item (failures q);
     shuttingDown := shuttingDown q |}.

(** What [Get] does once it returns; [None] while it blocks. *)
Definition Get (q : RateLimitingInterface)
  : option (string * bool * RateLimitingInterface) :=
  match items q with
  | [] => if shuttingDown q then Some ("", true, q) else None
  | item :: rest =>
      Some (item, false,
            {| items := rest; dirty := dirty q ∖ {[item]};
               processing := {[item]} ∪ processing q; waiting := waiting q;
               failures := failures q; shuttingDown := shuttingDown q |})
  end.

Definition Done (item : string) (q : RateLimitingInterface) : RateLimitingInterface :=
  {| items := if bool_decide (item ∈ dirty q) then items q ++ [item] else items q;
     dirty := dirty q; processing := processing q ∖ {[item]};
     waiting := waiting q; failures := failures q;
     shuttingDown := shuttingDown q |}.

Definition ShutDown (q : RateLimitingInterface) : RateLimitingInterface :=
  {| items := items q; dirty := dirty q; processing := processing q;
     waiting := waiting q; failures := failures q; shuttingDown := true |}.

(** The delay of the oldest rate-limited add has run: the key is added. *)
Definition delayElapsed (q : RateLimitingInterface) : RateLimitingInterface :=
  match waiting q with
  | [] => q
  | item :: rest =>
      Add item {| items := items q; dirty := dirty q;
                  processing := processing q; waiting := rest;
                  failures := failures q; shuttingDown := shuttingDown q |}
  end.

End workqueue.


(** ** The controller and its effects *)

(** Which of the controller's two queues a call goes to: [c.queue] (primary
    resources) or [c.clusterQueue] (topology sites).  A Go value of type
    [workqueue.RateLimitingInterface] held by the controller is one of the
    two. *)
Inductive QueueRef := Primary | Topology.

#[global] Instance QueueRef_eq_dec : EqDecision QueueRef.
Proof. solve_decision. Defined.

(** The calls that leave the controller. *)
Inductive Call :=
| QGet (q : QueueRef)
| QDone (q : QueueRef) (key : string)
| QAdd (q : QueueRef) (key : string)
| QAddRateLimited (q : QueueRef) (key : string)
| QForget (q : QueueRef) (key : string)
| QNumRequeues (q : QueueRef) (key : string)
| Update (ns : string) (d : Deployment)
| UpdateStatus (ns : string) (d : Deployment)
| HandleError (e : error).

#[global] Instance Call_eq_dec : EqDecision Call.
Proof. solve_decision. Defined.

(** The [Controller] struct.  [lister] and [indexer] read the same informer
    cache, a map from key to the cached object; a [*appsv1.Deployment]
    obtained from either is a pointer into that map, which the model
    represents by the key of the cell.  [trace] is the history of calls. *)
Record Controller := {
  queue : workqueue.RateLimitingInterface;
  clusterQueue : workqueue.RateLimitingInterface;
  indexer : gmap string Deployment;
  trace : list Call }.

Definition getQueue (q : QueueRef) (c : Controller) : workqueue.RateLimitingInterface :=
  match q with Primary => queue c | Topology => clusterQueue c end.

Definition setQueue (q : QueueRef) (w : workqueue.RateLimitingInterface)
  (c : Controller) : Controller :=
  match q with
  | Primary => {| queue := w; clusterQueue := clusterQueue c;
                  indexer := indexer c; trace := trace c |}
  | Topology => {| queue := queue c; clusterQueue := w;
                   indexer := indexer c; trace := trace c |}
  end.

Definition setIndexer (m : gmap string Deployment) (c : Controller) : Controller :=
  {| queue := queue c; clusterQueue := clusterQueue c;
     indexer := m; trace := trace c |}.

Definition record (e : Call) (c : Controller) : Controller :=
  {| queue := queue c; clusterQueue := clusterQueue c;
     indexer := indexer c; trace := trace c ++ [e] |}.

(** State passing. *)
Definition State (A : Type) : Type := Controller → A * Controller.

#[global] Instance State_ret : MRet State := λ A a c, (a, c).
#[global] Instance State_bind : MBind State :=
  λ A B f m c, let '(a, c') := m c in f a c'.

Definition modify (f : Controller → Controller) : State unit := λ c, (tt, f c).
Definition gets {A} (f : Controller → A) : State A := λ c, (f c, c).

Definition exec {A} (m : State A) (c : Controller) : Controller := (m c).2.
Definition result {A} (m : State A) (c : Controller) : A := (m c).1.

(** The calls issued since [c0]. *)
Definition issued (c0 c : Controller) : list Call := drop (length (trace c0)) (trace c).

(** Queue operations, each recorded. *)
Definition Add (q : QueueRef) (key : string) : State unit :=
  modify (λ c, record (QAdd q key) (setQueue q (workqueue.Add key (getQueue q c)) c)).

Definition AddRateLimited (q : QueueRef) (key : string) : State unit :=
  modify (λ c, record (QAddRateLimited q key)
                 (setQueue q (workqueue.AddRateLimited key (getQueue q c)) c)).

Definition Forget (q : QueueRef) (key : string) : State unit :=
  modify (λ c, record (QForget q key) (setQueue q (workqueue.Forget key (getQueue q c)) c)).

Definition NumRequeues (q : QueueRef) (key : string) : State nat :=
  λ c, (workqueue.NumRequeues key (getQueue q c), record (QNumRequeues q key) c).

Definition Done (q : QueueRef) (key : string) : State unit :=
  modify (λ c, record (QDone q key) (setQueue q (workqueue.Done key (getQueue q c)) c)).

(** [Get] blocks while the queue is empty and open: no result then. *)
Definition Get (q : QueueRef) (c : Controller) : option (string * bool * Controller) :=
  match workqueue.Get (getQueue q c) with
  | None => None
  | Some (k, quit, w) => Some (k, quit, record (QGet q) (setQueue q w c))
  end.

(** [runtime.HandleError]: the process-wide error sink. *)
Definition runtime_HandleError (e : error) : State unit := modify (record (HandleError e)).

Fixpoint forEach {A} (l : list A) (body : A → State unit) : State unit :=
  match l with
  | [] => mret tt
  | x :: l' => body x ;; forEach l' body
  end.

(** ** The controller's code *)

(** The collaborators the controller is wired to, as far as its code
    depends on them. *)
Class Collaborators := {
  (** the ownership label's name, a constant of the package declared
      outside this file *)
  ownedByLabel : string;
  (** [c.reconcile], declared outside this file: it mutates the deployment
      it is given, in place, and may fail *)
  reconcile : Deployment → Deployment * option error;
  (** the errors the reads of the cache come back with *)
  getByKeyErr : string → option error;
  listErr : option error;
  (** the errors the writes of the API client come back with *)
  updateErr : Deployment → option error;
  updateStatusErr : Deployment → option error }.

Section controller.

Context `{wiring : Collaborators}.

(** [c.indexer.GetByKey(key)]: the object (absent when [exists] is false)
    and the error. *)
Definition GetByKey (key : string) : State (option Deployment * option error) :=
  λ c, match getByKeyErr key with
       | Some e => ((None, Some e), c)
       | None => ((indexer c !! key, None), c)
       end.

(** [c.lister.List(labels.Everything())]: pointers to all cached objects. *)
Definition List : State (list string * option error) :=
  λ c, match listErr with
       | Some e => (([], Some e), c)
       | None => (((map_to_list (indexer c)).*1, None), c)
       end.

(** [c.reconcile(ctx, current)] where [current] points to the cached cell
    [key], whose content is [cached]: the cell holds the result afterwards. *)
Definition reconcileInPlace (key : string) (cached : Deployment)
  : State (Deployment * option error) :=
  λ c, let '(current, err) := reconcile cached in
       ((current, err), setIndexer (<[key := current]> (indexer c)) c).

Definition kubeClient_Update (ns : string) (d : Deployment) : State (option error) :=
  λ c, (updateErr d, record (Update ns d) c).

Definition kubeClient_UpdateStatus (ns : string) (d : Deployment) : State (option error) :=
  λ c, (updateStatusErr d, record (UpdateStatus ns d) c).

Definition enqueueCluster (obj : Object) : State unit :=
  match MetaNamespaceKeyFunc obj with
  | inr err => runtime_HandleError err
  | inl key => AddRateLimited Topology key
  end.

Definition enqueue (obj : Object) : State unit :=
  match MetaNamespaceKeyFunc obj with
  | inr err => runtime_HandleError err
  | inl key => AddRateLimited Primary key
  end.

Definition handleErr (err : option error) (key : string) (queue : QueueRef) : State unit :=
  match err with
  | None => Forget queue key
  | Some e =>
      num ← NumRequeues queue key;
      if bool_decide (num < 5) then AddRateLimited queue key
      else Forget queue key ;; runtime_HandleError e
  end.

Definition process (key : string) : State (option error) :=
  '(obj, err) ← GetByKey key;
  match err with
  | Some e => mret (Some e)
  | None =>
      match obj with
      | None => mret None
      | Some cached =>
          let previous := cached in
          '(current, rerr) ← reconcileInPlace key cached;
          match rerr with
          | Some e => mret (Some e)
          | None =>
              if negb (equality.DeepEqual previous current) then
                kubeClient_Update (Namespace (Metadata current)) current
              else if negb (equality.DeepEqualStatus (Status previous) (Status current)) then
                kubeClient_UpdateStatus (Namespace (Metadata current)) current
              else mret err
          end
      end
  end.

(** The label lookup [d.Labels[name]] of Go: the empty string when the key
    is absent. *)
Definition labelOf (d : Deployment) (name : string) : string :=
  default "" (default ∅ (Labels (Metadata d)) !! name).

(** The body of the loop of [processCluster] for the pointer [d]. *)
Definition processClusterBody (d : string) : State unit :=
  cell ← gets (λ c, indexer c !! d);
  match cell with
  | None => mret tt
  | Some o =>
      (match Labels (Metadata o) with
       | None => modify (λ c, setIndexer (<[d := setLabels (Some ∅) o]> (indexer c)) c)
       | Some _ => mret tt
       end) ;;
      let o' := match Labels (Metadata o) with
                | None => setLabels (Some ∅) o
                | Some _ => o
                end in
      if bool_decide (labelOf o' ownedByLabel = "") then enqueue (ObjDeployment o')
      else mret tt
  end.

Definition processCluster (_ : string) : State (option error) :=
  '(ds, err) ← List;
  match err with
  | Some e => mret (Some e)
  | None => forEach ds processClusterBody ;; mret None
  end.

(** One turn of a worker of the primary queue; [None] while [Get] blocks.
    The deferred [Done] runs last. *)
Definition processNextWorkItem (c : Controller) : option (bool * Controller) :=
  match Get Primary c with
  | None => None
  | Some (k, quit, c1) =>
      if quit then Some (false, c1)
      else
        let key := k in
        Some ((err ← process key;
               handleErr err key Primary ;;
               Done Primary key ;;
               mret true) c1)
  end.

(** One turn of a worker of the topology queue. *)
Definition processNextClusterWorkItem (c : Controller) : option (bool * Controller) :=
  match Get Topology c with
  | None => None
  | Some (k, quit, c1) =>
      if quit then Some (false, c1)
      else
        let key := k in
        Some ((err ← processCluster key;
               handleErr err key Topology ;;
               Done Primary key ;;
               mret true) c1)
  end.

(** [startWorker] and [startClusterWorker]: turns until [Get] reports the
    shutdown or blocks; [fuel] bounds the number of turns. *)
Fixpoint startWorker (fuel : nat) (c : Controller) : Controller :=
  match fuel with
  | 0 => c
  | S fuel' =>
      match processNextWorkItem c with
      | Some (true, c') => startWorker fuel' c'
      | Some (false, c') => c'
      | None => c
      end
  end.

Fixpoint startClusterWorker (fuel : nat) (c : Controller) : Controller :=
  match fuel with
  | 0 => c
  | S fuel' =>
      match processNextClusterWorkItem c with
      | Some (true, c') => startClusterWorker fuel' c'
      | Some (false, c') => c'
      | None => c
      end
  end.

(** A worker of the primary queue in an environment where every delay of
    the rate limiter has run by the time the worker asks for its next key:
    after each turn the waiting keys are added. *)
Definition delaysElapse (q : QueueRef) (c : Controller) : Controller :=
  setQueue q
    (Nat.iter (length (workqueue.waiting (getQueue q c))) workqueue.delayElapsed
       (getQueue q c)) c.

Fixpoint startWorkerWithDelays (fuel : nat) (c : Controller) : Controller :=
  match fuel with
  | 0 => c
  | S fuel' =>
      match processNextWorkItem c with
      | Some (true, c') => startWorkerWithDelays fuel' (delaysElapse Primary c')
      | Some (false, c') => c'
      | None => c
      end
  end.

(** ** The event handlers registered by [NewController] *)

(** [cache.ResourceEventHandlerFuncs]: a [nil] function is [None]. *)
Record ResourceEventHandlerFuncs := {
  AddFunc : option (Object → State unit);
  UpdateFunc : option (Object → Object → State unit);
  DeleteFunc : option (Object → State unit) }.

Inductive Notification :=
| OnAdd (obj : Object)
| OnUpdate (oldObj newObj : Object)
| OnDelete (obj : Object).

(** The informer calls the function registered for the notification, if
    there is one. *)
Definition notify (h : ResourceEventHandlerFuncs) (n : Notification) : State unit :=
  match n with
  | OnAdd obj => match AddFunc h with Some f => f obj | None => mret tt end
  | OnUpdate o obj => match UpdateFunc h with Some f => f o obj | None => mret tt end
  | OnDelete obj => match DeleteFunc h with Some f => f obj | None => mret tt end
  end.

(** The handlers [NewController] registers on the cluster informer. *)
Definition clusterHandlers : ResourceEventHandlerFuncs :=
  {| AddFunc := Some (λ obj, enqueueCluster obj);
     UpdateFunc := Some (λ _ obj, enqueueCluster obj);
     DeleteFunc := Some (λ obj, enqueueCluster obj) |}.

(** The handlers [NewController] registers on the deployment informer. *)
Definition deploymentHandlers : ResourceEventHandlerFuncs :=
  {| AddFunc := Some (λ obj, enqueue obj);
     UpdateFunc := Some (λ _ obj, enqueue obj);
     DeleteFunc := None |}.

End controller.

(** The controller [NewController] returns, once the informer caches have
    synced to [cache]: two fresh queues, no call issued yet. *)
Definition NewController (cache : gmap string Deployment) : Controller :=
  {| queue := workqueue.NewRateLimitingQueue;
     clusterQueue := workqueue.NewRateLimitingQueue;
     indexer := cache;
     trace := [] |}.

(** ** Observations on traces and caches *)

Definition isUpdate (e : Call) : bool :=
  match e with Update _ _ => true | _ => false end.

Definition isUpdateStatus (e : Call) : bool :=
  match e with UpdateStatus _ _ => true | _ => false end.

Definition isPersistence (e : Call) : bool := isUpdate e || isUpdateStatus e.

Definition isAdd (e : Call) : bool :=
  match e with QAdd _ _ => true | _ => false end.

Definition isAddRateLimited (e : Call) : bool :=
  match e with QAddRateLimited _ _ => true | _ => false end.

Definition isDoneOn (q : QueueRef) (e : Call) : bool :=
  match e with QDone q' _ => bool_decide (q' = q) | _ => false end.

Definition count (p : Call → bool) (l : list Call) : nat := length (List.filter p l).

(** What [processCluster] leaves of a cached object: a nil label map has
    become an empty one. *)
Definition allocLabels (d : Deployment) : Deployment :=
  match Labels (Metadata d) with
  | None => setLabels (Some ∅) d
  | Some _ => d
  end.

(** A root has no owner: its ownership label is empty or absent. *)
Definition isRoot `{wiring : Collaborators} (d : Deployment) : bool :=
  bool_decide (labelOf d ownedByLabel = "").

(** The call by which [enqueue] schedules the deployment [d]. *)
Definition enqueueCall (d : Deployment) : Call :=
  QAddRateLimited Primary (metaKey (Metadata d)).

(** The objects in the cache, in the order [List] returns them. *)
Definition listed (c : Controller) : list Deployment := (map_to_list (indexer c)).*2.

(** The enqueue of key [k] on queue [q] between [c0] and [c] was an [Add]:
    one call, and the key is pending. *)
Definition enqueuedByAdd (q : QueueRef) (k : string) (c0 c : Controller) : Prop :=
  issued c0 c = [QAdd q k] ∧ k ∈ workqueue.items (getQueue q c).

(** The enqueue of key [k] on queue [q] between [c0] and [c] was an
    [AddRateLimited]: one call, counted by the rate limiter, the pending
    keys as they were, the key waiting for its delay (unless the queue is
    shutting down). *)
Definition enqueuedRateLimited (q : QueueRef) (k : string) (c0 c : Controller) : Prop :=
  issued c0 c = [QAddRateLimited q k]
  ∧ workqueue.items (getQueue q c) = workqueue.items (getQueue q c0)
  ∧ workqueue.NumRequeues k (getQueue q c) = S (workqueue.NumRequeues k (getQueue q c0))
  ∧ workqueue.waiting (getQueue q c)
    = if workqueue.shuttingDown (getQueue q c0)
      then workqueue.waiting (getQueue q c0)
      else workqueue.waiting (getQueue q c0) ++ [k].

(** Some key was enqueued on queue [q] between [c0] and [c], by either
    kind of add. *)
Definition enqueuedOn (q : QueueRef) (c0 c : Controller) : Prop :=
  ∃ k, QAdd q k ∈ issued c0 c ∨ QAddRateLimited q k ∈ issued c0 c.

(** ** Scenarios *)

Definition deployment (ns name : string) (labels : option (gmap string string))
  (spec status : Z) : Deployment :=
  {| Metadata := {| Namespace := ns; Name := name; Labels := labels |};
     Spec := {| SpecReplicas := Some spec |};
     Status := {| Replicas := status; ReadyReplicas := 0 |} |}.

Definition cluster (name : string) : Cluster :=
  {| ClusterMetadata := {| Namespace := ""; Name := name; Labels := None |} |}.

(** Collaborators that never fail, and a reconcile that changes nothing. *)
Definition noError {A} (_ : A) : option error := None.
Definition reconcileNothing (d : Deployment) : Deployment * option error := (d, None).

(** A reconcile that sets [status.replicas] to 3 and touches nothing else. *)
Definition reconcileStatus3 (d : Deployment) : Deployment * option error :=
  (setStatus {| Replicas := 3; ReadyReplicas := ReadyReplicas (Status d) |} d, None).

(** A reconcile that always fails. *)
Definition reconcileFails (d : Deployment) : Deployment * option error :=
  (d, Some (Err "boom")).

(** Resource [x]: five replicas wanted, two reported. *)
Definition x : Deployment := deployment "default" "x" None 5 2.

(** Roots [a] and [b], and [c], derived from [a]. *)
Definition owned : string := "kcp.dev/owned-by".
Definition rootA : Deployment := deployment "default" "a" None 4 0.
Definition rootB : Deployment := deployment "default" "b" (Some {[ "app" := "b" ]}) 2 0.
Definition derivedC : Deployment :=
  deployment "default" "c" (Some {[ owned := "a" ]}) 2 0.

Definition cacheX : gmap string Deployment := {[ "default/x" := x ]}.
Definition cacheABC : gmap string Deployment :=
  {[ "default/a" := rootA; "default/b" := rootB; "default/c" := derivedC ]}.

(** A controller whose topology queue holds the pending key [c1]. *)
Definition topologyPending (cache : gmap string Deployment) : Controller :=
  setQueue Topology (workqueue.Add "c1" workqueue.NewRateLimitingQueue)
    (NewController cache).

(** Wirings of the collaborators: nothing fails and reconcile changes
    nothing; reconcile changes the status only; the listing fails. *)
Definition steady : Collaborators :=
  {| ownedByLabel := owned; reconcile := reconcileNothing;
     getByKeyErr := noError; listErr := None;
     updateErr := noError; updateStatusErr := noError |}.

Definition statusOnly : Collaborators :=
  {| ownedByLabel := owned; reconcile := reconcileStatus3;
     getByKeyErr := noError; listErr := None;
     updateErr := noError; updateStatusErr := noError |}.

Definition listFails : Collaborators :=
  {| ownedByLabel := owned; reconcile := reconcileNothing;
     getByKeyErr := noError; listErr := Some (Err "list failed");
     updateErr := noError; updateStatusErr := noError |}.

Definition reconcileAlwaysFails : Collaborators :=
  {| ownedByLabel := owned; reconcile := reconcileFails;
     getByKeyErr := noError; listErr := None;
     updateErr := noError; updateStatusErr := noError |}.

(** A controller whose primary queue holds the pending key of [x]. *)
Definition primaryPending (cache : gmap string Deployment) : Controller :=
  setQueue Primary (workqueue.Add "default/x" workqueue.NewRateLimitingQueue)
    (NewController cache).

(** ** The controller at work *)

(** What [Start] does once [stopCh] is closed: its deferred calls run, the
    last deferred first, and shut both queues down. *)
Definition Start_stopped (c : Controller) : Controller :=
  setQueue Primary (workqueue.ShutDown (queue c))
    (setQueue Topology (workqueue.ShutDown (clusterQueue c)) c).

(** Modelled from the spec: the deployment informer, which is not part of
    this repository, keeps the cache fresh: it stores the object it is
    about to announce, or drops the one whose deletion it announces. *)
Definition informerStores (n : Notification) (m : gmap string Deployment)
  : gmap string Deployment :=
  match n with
  | OnAdd (ObjDeployment d) | OnUpdate _ (ObjDeployment d) =>
      <[metaKey (Metadata d) := d]> m
  | OnDelete (ObjDeployment d) => delete (metaKey (Metadata d)) m
  | OnDelete (ObjTombstone k) => delete k m
  | _ => m
  end.

(** What can happen to a running controller: an informer announces a
    change, a delay of a rate limiter runs out, a worker of either queue
    takes a turn, or [stopCh] is closed. *)
Inductive Event :=
| DeploymentNotified (n : Notification)
| ClusterNotified (n : Notification)
| DelayElapsed (q : QueueRef)
| WorkerTurn
| ClusterWorkerTurn
| Stopped.

(** One event; [None] when the event is a worker's turn and its [Get]
    blocks. *)
Definition step `{wiring : Collaborators} (ev : Event) (c : Controller)
  : option Controller :=
  match ev with
  | DeploymentNotified n =>
      Some (exec (notify deploymentHandlers n)
              (setIndexer (informerStores n (indexer c)) c))
  | ClusterNotified n => Some (exec (notify clusterHandlers n) c)
  | DelayElapsed q => Some (setQueue q (workqueue.delayElapsed (getQueue q c)) c)
  | WorkerTurn => snd <$> processNextWorkItem c
  | ClusterWorkerTurn => snd <$> processNextClusterWorkItem c
  | Stopped => Some (Start_stopped c)
  end.

Fixpoint run `{wiring : Collaborators} (evs : list Event) (c : Controller)
  : option Controller :=
  match evs with
  | [] => Some c
  | ev :: evs' =>
      match step ev c with
      | Some c' => run evs' c'
      | None => None
      end
  end.

(** The pending keys of a queue are distinct, marked dirty, and not in
    processing. *)
Definition wellFormed (w : workqueue.RateLimitingInterface) : Prop :=
  NoDup (workqueue.items w)
  ∧ ∀ k, k ∈ workqueue.items w →
         k ∈ workqueue.dirty w ∧ k ∉ workqueue.processing w.

(** Two states of a queue with the same pending, dirty and processing
    keys. *)
Definition sameKeys (w w' : workqueue.RateLimitingInterface) : Prop :=
  workqueue.items w' = workqueue.items w
  ∧ workqueue.dirty w' = workqueue.dirty w
  ∧ workqueue.processing w' = workqueue.processing w.

(** The controller after the events [evs], if they can all happen. *)
Definition after `{wiring : Collaborators} (evs : list Event) (c : Controller)
  : Controller :=
  default c (run evs c).

(** The queue as a [Get] that returns leaves it. *)
Definition afterGet (w : workqueue.RateLimitingInterface)
  : workqueue.RateLimitingInterface :=
  match workqueue.Get w with
  | Some (_, _, w') => w'
  | None => w
  end.

(** The keys reported done to queue [q], in order. *)
Definition doneOn (q : QueueRef) (l : list Call) : list string :=
  omap (λ e, match e with
             | QDone q' k => if bool_decide (q' = q) then Some k else None
             | _ => None
             end) l.

Definition isGetOn (q : QueueRef) (e : Call) : bool :=
  match e with QGet q' => bool_decide (q' = q) | _ => false end.

(** The rate-limited adds of a list of keys, one after the other. *)
Definition addAllRateLimited (keys : list string)
  (w : workqueue.RateLimitingInterface) : workqueue.RateLimitingInterface :=
  foldl (λ w k, workqueue.AddRateLimited k w) w keys.

(** A reconcile that sets [status.replicas] to 3 and then fails. *)
Definition reconcileStatus3Fails (d : Deployment) : Deployment * option error :=
  (setStatus {| Replicas := 3; ReadyReplicas := ReadyReplicas (Status d) |} d,
   Some (Err "boom")).

(** More wirings: reconcile fails after it changed the status; the API
    server refuses every update. *)
Definition failsAfterChange : Collaborators :=
  {| ownedByLabel := owned; reconcile := reconcileStatus3Fails;
     getByKeyErr := noError; listErr := None;
     updateErr := noError; updateStatusErr := noError |}.

Definition updateRefused : Collaborators :=
  {| ownedByLabel := owned; reconcile := reconcileStatus3;
     getByKeyErr := noError; listErr := None;
     updateErr := λ _, Some (Err "conflict"); updateStatusErr := noError |}.

(** The cache cannot be read. *)
Definition lookupFails : Collaborators :=
  {| ownedByLabel := owned; reconcile := reconcileNothing;
     getByKeyErr := λ _, Some (Err "cache"); listErr := None;
     updateErr := noError; updateStatusErr := noError |}.

(** The cluster [c1] is announced and the delay of its enqueue runs out;
    later it is announced again. *)
Definition clusterArrives : list Event :=
  [ClusterNotified (OnAdd (ObjCluster (cluster "c1"))); DelayElapsed Topology].

Definition clusterChanges : list Event :=
  [ClusterNotified (OnUpdate (ObjCluster (cluster "c1")) (ObjCluster (cluster "c1")));
   DelayElapsed Topology].

(** * Properties *)

(** ** Traces *)

Lemma issued_app (c0 c : Controller) (l : list Call) :
  trace c = trace c0 ++ l → issued c0 c = l.
Proof. unfold issued. intros ->. apply drop_app_length. Qed.

Lemma issued_nil (c0 c : Controller) : trace c = trace c0 → issued c0 c = [].
Proof. intros E. apply issued_app. by rewrite app_nil_r. Qed.

Lemma count_app (p : Call → bool) (l k : list Call) :
  count p (l ++ k) = count p l + count p k.
Proof. unfold count. by rewrite List.filter_app, length_app. Qed.

(** ** Semantic equality *)

Lemma DeepEqual_refl (d : Deployment) : equality.DeepEqual d d = true.
Proof.
  unfold equality.DeepEqual, equality.DeepEqualMeta, equality.labelsEqual,
    equality.DeepEqualSpec, equality.DeepEqualStatus.
  by rewrite !bool_decide_eq_true_2.
Qed.

(** The status is part of the object: objects that are deep-equal have
    deep-equal statuses. *)
Lemma DeepEqual_status (a b : Deployment) :
  equality.DeepEqual a b = true →
  equality.DeepEqualStatus (Status a) (Status b) = true.
Proof. unfold equality.DeepEqual. intros E. by apply andb_true_iff in E as [_ ?]. Qed.

(** A nil label map and an empty one are semantically equal. *)
Lemma DeepEqual_allocLabels (d : Deployment) :
  equality.DeepEqual d (allocLabels d) = true.
Proof.
  unfold allocLabels. destruct d as [[ns n [l|]] sp st]; simpl.
  - apply DeepEqual_refl.
  - unfold equality.DeepEqual, equality.DeepEqualMeta, equality.labelsEqual,
      equality.DeepEqualSpec, equality.DeepEqualStatus; simpl.
    by rewrite !bool_decide_eq_true_2.
Qed.

Section properties.

Context `{wiring : Collaborators}.

(** ** [process] *)

(** The four ways through [process] once the object was found. *)
Lemma process_found (key : string) (c : Controller) (d : Deployment) :
  getByKeyErr key = None → indexer c !! key = Some d →
  process key c =
    let current := (reconcile d).1 in
    let c1 := setIndexer (<[key := current]> (indexer c)) c in
    match (reconcile d).2 with
    | Some e => (Some e, c1)
    | None =>
        if equality.DeepEqual d current then (None, c1)
        else (updateErr current, record (Update (Namespace (Metadata current)) current) c1)
    end.
Proof.
  intros Hg Hd. unfold process, GetByKey, mbind, State_bind, reconcileInPlace.
  rewrite Hg, Hd. destruct (reconcile d) as [current [e|]] eqn:Hr; simpl; [done|].
  destruct (equality.DeepEqual d current) eqn:He; simpl; [|done].
  by rewrite (DeepEqual_status _ _ He).
Qed.

Lemma process_get_failed (key : string) (c : Controller) (e : error) :
  getByKeyErr key = Some e → process key c = (Some e, c).
Proof.
  intros Hg. unfold process, GetByKey, mbind, State_bind. by rewrite Hg.
Qed.

Lemma process_absent (key : string) (c : Controller) :
  getByKeyErr key = None → indexer c !! key = None → process key c = (None, c).
Proof.
  intros Hg Hd. unfold process, GetByKey, mbind, State_bind. by rewrite Hg, Hd.
Qed.

(** What [process] adds to the trace: nothing, or one [Update]. *)
Lemma process_trace (key : string) (c : Controller) :
  trace (exec (process key) c) = trace c
  ∨ ∃ ns d, trace (exec (process key) c) = trace c ++ [Update ns d].
Proof.
  unfold exec. destruct (getByKeyErr key) as [e|] eqn:Hg.
  { left. by rewrite (process_get_failed _ _ _ Hg). }
  destruct (indexer c !! key) as [d|] eqn:Hd.
  2:{ left. by rewrite (process_absent _ _ Hg Hd). }
  rewrite (process_found _ _ _ Hg Hd). simpl.
  destruct (reconcile d).2; [by left|].
  destruct (equality.DeepEqual _ _); [by left|]. right. eauto.
Qed.

(** C8: when the cache lookup reports not-found (no error, no object),
    [process] returns the nil error and issues no persistence call; in
    fact it leaves the controller as it was. *)
Theorem process_deleted_object_succeeds (key : string) (c : Controller) :
  getByKeyErr key = None → indexer c !! key = None →
  result (process key) c = None
  ∧ count isPersistence (issued c (exec (process key) c)) = 0
  ∧ exec (process key) c = c.
Proof.
  intros Hg Hd. unfold result, exec. rewrite (process_absent _ _ Hg Hd). simpl.
  by rewrite issued_nil.
Qed.

(** C9: when reconcile succeeds and leaves the object semantically
    deep-equal to the snapshot taken before it, [process] returns the nil
    error and issues no call at all: neither [Update] nor [UpdateStatus]. *)
Theorem process_noop_issues_nothing (key : string) (c : Controller) (d : Deployment) :
  getByKeyErr key = None → indexer c !! key = Some d →
  (reconcile d).2 = None →
  equality.DeepEqual d (reconcile d).1 = true →
  result (process key) c = None
  ∧ issued c (exec (process key) c) = []
  ∧ count isPersistence (issued c (exec (process key) c)) = 0.
Proof.
  intros Hg Hd Hr He. unfold result, exec. rewrite (process_found _ _ _ Hg Hd).
  simpl. rewrite Hr, He. simpl. by rewrite issued_nil.
Qed.

(** C10: whatever the key, the cache and the behaviour of reconcile,
    [process] never calls [UpdateStatus]: the branch that would is dead,
    because no two objects are deep-equal as a whole and differ in status. *)
Theorem process_never_calls_UpdateStatus (key : string) (c : Controller) :
  count isUpdateStatus (issued c (exec (process key) c)) = 0
  ∧ ∀ previous current : Deployment,
      equality.DeepEqual previous current
      && negb (equality.DeepEqualStatus (Status previous) (Status current)) = false.
Proof.
  split.
  - destruct (process_trace key c) as [E|(ns & d & E)].
    + by rewrite (issued_nil _ _ E).
    + by rewrite (issued_app _ _ _ E).
  - intros a b. destruct (equality.DeepEqual a b) eqn:E; [|done].
    by rewrite (DeepEqual_status _ _ E).
Qed.

(** A change that reconcile makes to the object, in the status or
    elsewhere, is written by exactly one [Update]. *)
Lemma process_change_issues_Update (key : string) (c : Controller) (d : Deployment) :
  getByKeyErr key = None → indexer c !! key = Some d →
  (reconcile d).2 = None →
  equality.DeepEqual d (reconcile d).1 = false →
  issued c (exec (process key) c)
  = [Update (Namespace (Metadata (reconcile d).1)) (reconcile d).1].
Proof.
  intros Hg Hd Hr He. unfold exec. rewrite (process_found _ _ _ Hg Hd).
  simpl. rewrite Hr, He. simpl. by apply issued_app.
Qed.

(** ** Queue operations *)

Lemma exec_bind {A B} (m : State A) (k : A → State B) (c : Controller) :
  exec (m ≫= k) c = exec (k (result m c)) (exec m c).
Proof. unfold exec, result, mbind, State_bind. by destruct (m c). Qed.

Lemma AddRateLimited_enqueued (q : QueueRef) (key : string) (c : Controller) :
  enqueuedRateLimited q key c (exec (AddRateLimited q key) c).
Proof.
  unfold enqueuedRateLimited, exec, AddRateLimited, modify. simpl.
  rewrite (issued_app _ _ [QAddRateLimited q key]) by (by destruct q).
  replace (getQueue q (record (QAddRateLimited q key)
             (setQueue q (workqueue.AddRateLimited key (getQueue q c)) c)))
    with (workqueue.AddRateLimited key (getQueue q c)) by (by destruct q).
  split; [done|]. split; [done|]. split; [|done].
  unfold workqueue.NumRequeues at 1. simpl. by rewrite lookup_insert_eq.
Qed.

(** ** The event handlers *)

Lemma enqueue_keyed (obj : Object) (key : string) :
  MetaNamespaceKeyFunc obj = inl key → enqueue obj = AddRateLimited Primary key.
Proof. unfold enqueue. by intros ->. Qed.

Lemma enqueueCluster_keyed (obj : Object) (key : string) :
  MetaNamespaceKeyFunc obj = inl key → enqueueCluster obj = AddRateLimited Topology key.
Proof. unfold enqueueCluster. by intros ->. Qed.

(** ** [processCluster] *)

Lemma isRoot_allocLabels (d : Deployment) : isRoot (allocLabels d) = isRoot d.
Proof.
  unfold isRoot, labelOf, allocLabels. by destruct d as [[ns n [l|]] sp st].
Qed.

Lemma enqueueCall_allocLabels (d : Deployment) :
  enqueueCall (allocLabels d) = enqueueCall d.
Proof. unfold enqueueCall, allocLabels. by destruct d as [[ns n [l|]] sp st]. Qed.

Lemma processClusterBody_absent (p : string) (c : Controller) :
  indexer c !! p = None → exec (processClusterBody p) c = c.
Proof.
  intros E. unfold exec, processClusterBody, mbind, State_bind, gets. by rewrite E.
Qed.

Lemma processClusterBody_found (p : string) (c : Controller) (o : Deployment) :
  indexer c !! p = Some o →
  trace (exec (processClusterBody p) c)
  = trace c ++ (if isRoot o then [enqueueCall o] else [])
  ∧ indexer (exec (processClusterBody p) c) = <[p := allocLabels o]> (indexer c).
Proof.
  intros E. unfold exec, processClusterBody, mbind, State_bind, gets. rewrite E.
  fold (allocLabels o). fold (isRoot (allocLabels o)). rewrite isRoot_allocLabels.
  unfold allocLabels at 1.
  destruct (Labels (Metadata o)) eqn:El; simpl.
  - assert (Ho : allocLabels o = o) by (unfold allocLabels; by rewrite El).
    rewrite Ho, (insert_id _ _ _ E).
    destruct (isRoot o); simpl; [|by rewrite app_nil_r].
    unfold enqueue. simpl. done.
  - assert (Ho : allocLabels o = setLabels (Some ∅) o)
      by (unfold allocLabels; by rewrite El).
    rewrite <- Ho.
    destruct (isRoot o); simpl; [|by rewrite app_nil_r].
    unfold enqueue. simpl. by rewrite <- (enqueueCall_allocLabels o).
Qed.

Lemma omap_ext_elem {A B} (f g : A → option B) (l : list A) :
  (∀ a, a ∈ l → f a = g a) → omap f l = omap g l.
Proof.
  induction l as [|a l IH]; intros E; csimpl; [done|].
  rewrite (E a) by (by left). rewrite IH; [done|].
  intros b Hb. apply E. by right.
Qed.

Lemma omap_lookup_pairs {A} (m : gmap string A) (l : list (string * A)) :
  (∀ k v, (k, v) ∈ l → m !! k = Some v) → omap (λ p, m !! p) l.*1 = l.*2.
Proof.
  induction l as [|[k v] l IH]; intros E; csimpl; [done|].
  rewrite (E k v) by (by left). csimpl. f_equal. apply IH.
  intros k' v' Hin. apply E. by right.
Qed.

(** The loop of [processCluster] over distinct pointers. *)
Lemma forEach_processClusterBody (ps : list string) :
  NoDup ps →
  ∀ c : Controller,
    trace (exec (forEach ps processClusterBody) c)
    = trace c ++ (enqueueCall <$> List.filter isRoot (omap (λ p, indexer c !! p) ps))
    ∧ ∀ k, indexer (exec (forEach ps processClusterBody) c) !! k
           = if bool_decide (k ∈ ps) then allocLabels <$> indexer c !! k
             else indexer c !! k.
Proof.
  induction ps as [|p ps IH]; intros Hnd c.
  { simpl. split; [by rewrite app_nil_r|done]. }
  apply NoDup_cons in Hnd as [Hp Hnd].
  change (forEach (p :: ps) processClusterBody)
    with (processClusterBody p ≫= λ _, forEach ps processClusterBody).
  rewrite exec_bind.
  destruct (IH Hnd (exec (processClusterBody p) c)) as [IHt IHi].
  destruct (indexer c !! p) as [o|] eqn:E.
  - destruct (processClusterBody_found p c o E) as [Ht Hi].
    assert (Hsame : omap (λ q, indexer (exec (processClusterBody p) c) !! q) ps
                    = omap (λ q, indexer c !! q) ps).
    { apply omap_ext_elem. intros q Hq. rewrite Hi.
      apply lookup_insert_ne. by intros ->. }
    split.
    + rewrite IHt, Ht, Hsame. simpl. rewrite E. simpl.
      destruct (isRoot o); simpl; by rewrite <- ?app_assoc, ?app_nil_r.
    + intros k. rewrite IHi, Hi.
      destruct (decide (k = p)) as [->|Hne].
      * rewrite (bool_decide_eq_false_2 _ Hp), lookup_insert_eq, E.
        by rewrite bool_decide_eq_true_2 by (by left).
      * rewrite lookup_insert_ne by done.
        destruct (decide (k ∈ ps)) as [Hk|Hk].
        -- rewrite !bool_decide_eq_true_2; [done| by right | done].
        -- rewrite !bool_decide_eq_false_2; [done| |done].
           intros [?|?]%elem_of_cons; done.
  - rewrite (processClusterBody_absent p c E) in *.
    split.
    + rewrite IHt. simpl. by rewrite E.
    + intros k. rewrite IHi.
      destruct (decide (k = p)) as [->|Hne].
      * rewrite (bool_decide_eq_false_2 _ Hp), E.
        by rewrite bool_decide_eq_true_2 by (by left).
      * destruct (decide (k ∈ ps)) as [Hk|Hk].
        -- rewrite !bool_decide_eq_true_2; [done| by right | done].
        -- rewrite !bool_decide_eq_false_2; [done| |done].
           intros [?|?]%elem_of_cons; done.
Qed.

Lemma processCluster_list_failed (key : string) (c : Controller) (e : error) :
  listErr = Some e → processCluster key c = (Some e, c).
Proof.
  intros E. unfold processCluster, List, mbind, State_bind. by rewrite E.
Qed.

Lemma processCluster_listed (key : string) (c : Controller) :
  listErr = None →
  result (processCluster key) c = None
  ∧ trace (exec (processCluster key) c)
    = trace c ++ (enqueueCall <$> List.filter isRoot (listed c))
  ∧ indexer (exec (processCluster key) c) = allocLabels <$> indexer c.
Proof.
  intros E.
  assert (Hrun : processCluster key c
                 = (None, exec (forEach (map_to_list (indexer c)).*1 processClusterBody) c)).
  { unfold processCluster, List, mbind, State_bind, exec. rewrite E.
    by destruct (forEach _ _ c). }
  unfold result, exec at 1 2. rewrite Hrun. simpl.
  destruct (forEach_processClusterBody _ (NoDup_fst_map_to_list (indexer c)) c)
    as [Ht Hi].
  split; [done|]. split.
  - rewrite Ht. unfold listed. rewrite omap_lookup_pairs; [done|].
    intros k v. apply elem_of_map_to_list.
  - apply map_eq. intros k. rewrite Hi, lookup_fmap.
    destruct (decide (k ∈ (map_to_list (indexer c)).*1)) as [Hk|Hk].
    + by rewrite bool_decide_eq_true_2.
    + rewrite bool_decide_eq_false_2 by done.
      destruct (indexer c !! k) as [v|] eqn:Ek; [|done].
      exfalso. apply Hk. apply list_elem_of_fmap. exists (k, v). split; [done|].
      by apply elem_of_map_to_list.
Qed.

Lemma count_enqueueCalls (p : Call → bool) (l : list Deployment) :
  (∀ d, p (enqueueCall d) = true) → count p (enqueueCall <$> l) = length l.
Proof.
  intros Hp. unfold count. induction l as [|d l IH]; csimpl; [done|].
  rewrite Hp. simpl. by rewrite IH.
Qed.

Lemma count_enqueueCalls_0 (p : Call → bool) (l : list Deployment) :
  (∀ d, p (enqueueCall d) = false) → count p (enqueueCall <$> l) = 0.
Proof.
  intros Hp. unfold count. induction l as [|d l IH]; csimpl; [done|].
  by rewrite Hp.
Qed.

(** What [processCluster] issues: one rate-limited add per listed root. *)
Lemma processCluster_issued (key : string) (c : Controller) :
  issued c (exec (processCluster key) c)
  = match listErr with
    | None => enqueueCall <$> List.filter isRoot (listed c)
    | Some _ => []
    end.
Proof.
  destruct listErr as [e|] eqn:E.
  - unfold exec. rewrite (processCluster_list_failed key c e E). by apply issued_nil.
  - destruct (processCluster_listed key c E) as (_ & Ht & _). by apply issued_app.
Qed.

(** C7: on a topology-change event [processCluster] issues exactly one
    enqueue on the primary queue for each listed root (ownership label
    empty or absent), in the order of the listing, and none for a derived
    resource; when the listing fails it returns that error and does
    nothing else. *)
Theorem processCluster_enqueues_exactly_roots (key : string) (c : Controller) :
  match listErr with
  | None =>
      result (processCluster key) c = None
      ∧ issued c (exec (processCluster key) c)
        = (λ d, QAddRateLimited Primary (metaKey (Metadata d)))
            <$> List.filter isRoot (listed c)
      ∧ length (issued c (exec (processCluster key) c))
        = length (List.filter isRoot (listed c))
  | Some e => processCluster key c = (Some e, c)
  end.
Proof.
  pose proof (processCluster_issued key c) as Hi.
  destruct listErr as [e|] eqn:E.
  - by apply processCluster_list_failed.
  - destruct (processCluster_listed key c E) as (Hr & _ & _).
    split; [done|]. rewrite Hi. split; [done|]. by rewrite length_fmap.
Qed.

(** C3, amended: [processCluster] replaces the nil label map of a cached
    object by an empty one, which leaves the object semantically
    deep-equal, and changes nothing else in the cache; [process] itself
    writes nothing to a cached object: after it the cache differs at most
    at the key, where it holds the object as the reconcile function, which
    was handed the cached object and not a copy, left it;
    [processCluster] issues no persistence call, and the only call
    [process] issues, if any, is one [Update]. *)
Theorem cache_writes_of_the_core (key : string) (c : Controller) :
  indexer (exec (processCluster key) c)
  = match listErr with
    | None => allocLabels <$> indexer c
    | Some _ => indexer c
    end
  ∧ (∀ d, equality.DeepEqual d (allocLabels d) = true)
  ∧ indexer (exec (process key) c)
    = match getByKeyErr key, indexer c !! key with
      | None, Some d => <[key := (reconcile d).1]> (indexer c)
      | _, _ => indexer c
      end
  ∧ count isPersistence (issued c (exec (processCluster key) c)) = 0
  ∧ (issued c (exec (process key) c) = []
     ∨ ∃ ns d, issued c (exec (process key) c) = [Update ns d]).
Proof.
  split; [|split; [|split; [|split]]].
  - destruct listErr as [e|] eqn:E.
    + unfold exec. by rewrite (processCluster_list_failed key c e E).
    + by destruct (processCluster_listed key c E) as (_ & _ & ?).
  - apply DeepEqual_allocLabels.
  - unfold exec. destruct (getByKeyErr key) as [e|] eqn:Hg.
    { by rewrite (process_get_failed _ _ _ Hg). }
    destruct (indexer c !! key) as [d|] eqn:Hd.
    2:{ by rewrite (process_absent _ _ Hg Hd). }
    rewrite (process_found _ _ _ Hg Hd). simpl.
    destruct (reconcile d).2; [done|]. by destruct (equality.DeepEqual _ _).
  - rewrite processCluster_issued. destruct listErr; [done|].
    by apply count_enqueueCalls_0.
  - destruct (process_trace key c) as [E|(ns & d & E)].
    + left. by apply issued_nil.
    + right. exists ns, d. by apply issued_app.
Qed.

(** C4, amended: every event-triggered enqueue is an [AddRateLimited] and
    never an [Add]: [enqueue] and [enqueueCluster] issue one rate-limited
    add of the object's key on their queue, which counts against the key's
    retry budget and leaves the pending keys as they were, and every call
    [processCluster] issues is a rate-limited add. *)
Theorem event_enqueue_is_rate_limited (obj : Object) (key trigger : string)
  (c : Controller) :
  MetaNamespaceKeyFunc obj = inl key →
  enqueuedRateLimited Primary key c (exec (enqueue obj) c)
  ∧ enqueuedRateLimited Topology key c (exec (enqueueCluster obj) c)
  ∧ count isAddRateLimited (issued c (exec (processCluster trigger) c))
    = length (issued c (exec (processCluster trigger) c))
  ∧ count isAdd (issued c (exec (processCluster trigger) c)) = 0.
Proof.
  intros Hk. rewrite (enqueue_keyed _ _ Hk), (enqueueCluster_keyed _ _ Hk).
  split; [apply AddRateLimited_enqueued|]. split; [apply AddRateLimited_enqueued|].
  rewrite processCluster_issued. destruct listErr; [done|]. split.
  - rewrite length_fmap. by apply count_enqueueCalls.
  - by apply count_enqueueCalls_0.
Qed.

(** C5, amended: for every create and every update notification about a
    deployment the key of the object is computed and enqueued on the
    primary queue; for a delete notification nothing is registered, so it
    leaves the controller as it was: no enqueue.  (For clusters all three
    notifications enqueue on the topology queue.) *)
Theorem deployment_notifications (d : Deployment) (cl : Cluster) (old : Object)
  (c : Controller) :
  enqueuedRateLimited Primary (metaKey (Metadata d)) c
    (exec (notify deploymentHandlers (OnAdd (ObjDeployment d))) c)
  ∧ enqueuedRateLimited Primary (metaKey (Metadata d)) c
      (exec (notify deploymentHandlers (OnUpdate old (ObjDeployment d))) c)
  ∧ exec (notify deploymentHandlers (OnDelete (ObjDeployment d))) c = c
  ∧ enqueuedRateLimited Topology (metaKey (ClusterMetadata cl)) c
      (exec (notify clusterHandlers (OnAdd (ObjCluster cl))) c)
  ∧ enqueuedRateLimited Topology (metaKey (ClusterMetadata cl)) c
      (exec (notify clusterHandlers (OnUpdate old (ObjCluster cl))) c)
  ∧ enqueuedRateLimited Topology (metaKey (ClusterMetadata cl)) c
      (exec (notify clusterHandlers (OnDelete (ObjCluster cl))) c).
Proof.
  repeat split_and; try done; apply AddRateLimited_enqueued.
Qed.

(** ** [handleErr] *)

(** A failure below the retry budget: the key is re-enqueued, rate-limited. *)
Lemma handleErr_retries (e : error) (key : string) (q : QueueRef) (c : Controller) :
  workqueue.NumRequeues key (getQueue q c) < 5 →
  trace (exec (handleErr (Some e) key q) c)
  = trace c ++ [QNumRequeues q key; QAddRateLimited q key]
  ∧ getQueue q (exec (handleErr (Some e) key q) c)
    = workqueue.AddRateLimited key (getQueue q c).
Proof.
  intros Hn. unfold exec, handleErr, mbind, State_bind, NumRequeues. simpl.
  replace (getQueue q (record (QNumRequeues q key) c)) with (getQueue q c)
    by (by destruct q).
  rewrite bool_decide_eq_true_2 by done.
  unfold AddRateLimited, modify. simpl. split.
  - destruct q; simpl; by rewrite <- app_assoc.
  - by destruct q.
Qed.

(** A failure once the budget is spent: the key is forgotten and the error
    reported; nothing is enqueued. *)
Lemma handleErr_gives_up (e : error) (key : string) (q : QueueRef) (c : Controller) :
  5 ≤ workqueue.NumRequeues key (getQueue q c) →
  trace (exec (handleErr (Some e) key q) c)
  = trace c ++ [QNumRequeues q key; QForget q key; HandleError e]
  ∧ getQueue q (exec (handleErr (Some e) key q) c)
    = workqueue.Forget key (getQueue q c).
Proof.
  intros Hn. unfold exec, handleErr, mbind, State_bind, NumRequeues. simpl.
  replace (getQueue q (record (QNumRequeues q key) c)) with (getQueue q c)
    by (by destruct q).
  rewrite bool_decide_eq_false_2 by lia.
  unfold Forget, runtime_HandleError, modify. simpl. split.
  - destruct q; simpl; by rewrite <- !app_assoc.
  - by destruct q.
Qed.

Lemma NumRequeues_AddRateLimited (key : string) (w : workqueue.RateLimitingInterface) :
  workqueue.NumRequeues key (workqueue.AddRateLimited key w)
  = S (workqueue.NumRequeues key w).
Proof. unfold workqueue.NumRequeues at 1. simpl. by rewrite lookup_insert_eq. Qed.

Lemma NumRequeues_Forget (key : string) (w : workqueue.RateLimitingInterface) :
  workqueue.NumRequeues key (workqueue.Forget key w) = 0.
Proof. unfold workqueue.NumRequeues. simpl. by rewrite lookup_delete_eq. Qed.

(** [n] failures in a row that stay within the budget: [n] re-enqueues. *)
Lemma handleErr_iter (e : error) (key : string) (q : QueueRef) (c : Controller)
  (n : nat) :
  workqueue.NumRequeues key (getQueue q c) + n ≤ 5 →
  trace (Nat.iter n (exec (handleErr (Some e) key q)) c)
  = trace c ++ concat (replicate n [QNumRequeues q key; QAddRateLimited q key])
  ∧ workqueue.NumRequeues key (getQueue q (Nat.iter n (exec (handleErr (Some e) key q)) c))
    = workqueue.NumRequeues key (getQueue q c) + n.
Proof.
  induction n as [|n IH]; intros Hn.
  { simpl. split; [by rewrite app_nil_r | lia]. }
  destruct IH as [IHt IHn]; [lia|].
  cbn [Nat.iter nat_rect].
  destruct (handleErr_retries e key q
              (Nat.iter n (exec (handleErr (Some e) key q)) c)) as [Ht Hq]; [lia|].
  unfold Nat.iter in Ht, Hq, IHt, IHn.
  rewrite Ht, Hq, IHt, NumRequeues_AddRateLimited, IHn.
  split; [|lia].
  by rewrite replicate_S_end, concat_app, <- app_assoc.
Qed.

(** C6: a key whose handler fails on every attempt is re-enqueued by
    [handleErr], through [AddRateLimited], until its retry counter has
    reached 5, that is at most 5 times (exactly 5 times from a counter of
    zero); the failure after that resets the counter with [Forget],
    reports the error to [runtime.HandleError] and enqueues nothing, so
    there is no further retry. *)
Theorem handleErr_retry_bound (e : error) (key : string) (q : QueueRef)
  (c : Controller) :
  let retries := 5 - workqueue.NumRequeues key (getQueue q c) in
  let c' := Nat.iter retries (exec (handleErr (Some e) key q)) c in
  let c'' := exec (handleErr (Some e) key q) c' in
  retries ≤ 5
  ∧ issued c c' = concat (replicate retries [QNumRequeues q key; QAddRateLimited q key])
  ∧ count isAddRateLimited (issued c c') = retries
  ∧ issued c' c'' = [QNumRequeues q key; QForget q key; HandleError e]
  ∧ workqueue.NumRequeues key (getQueue q c'') = 0
  ∧ workqueue.waiting (getQueue q c'') = workqueue.waiting (getQueue q c')
  ∧ workqueue.items (getQueue q c'') = workqueue.items (getQueue q c').
Proof.
  intros retries c' c''.
  assert (Hle : retries ≤ 5) by (unfold retries; lia).
  split; [done|].
  destruct (decide (workqueue.NumRequeues key (getQueue q c) ≤ 5)) as [Hn|Hn].
  - destruct (handleErr_iter e key q c retries) as [Ht Hc]; [unfold retries; lia|].
    fold c' in Ht, Hc.
    destruct (handleErr_gives_up e key q c') as [Ht' Hq']; [unfold retries in Hc; lia|].
    fold c'' in Ht', Hq'.
    rewrite (issued_app _ _ _ Ht), (issued_app _ _ _ Ht'), Hq', NumRequeues_Forget.
    repeat split_and; try done.
    clear. unfold count. induction retries as [|n IH]; [done|]. simpl. by rewrite IH.
  - assert (retries = 0) as Hz by (unfold retries; lia).
    assert (c' = c) as Hc by (unfold c'; by rewrite Hz).
    destruct (handleErr_gives_up e key q c') as [Ht' Hq']; [rewrite Hc; lia|].
    fold c'' in Ht', Hq'.
    rewrite (issued_app _ _ _ Ht'), Hq', NumRequeues_Forget, Hc, Hz.
    rewrite (issued_nil c c) by done. repeat split_and; done.
Qed.

(** ** The worker of the topology queue *)

Lemma run_bind {A B} (m : State A) (k : A → State B) (c : Controller) :
  (m ≫= k) c = k (result m c) (exec m c).
Proof. unfold exec, result, mbind, State_bind. by destruct (m c). Qed.

Lemma count_isDoneOn_enqueueCalls (q : QueueRef) (l : list Deployment) :
  count (isDoneOn q) (enqueueCall <$> l) = 0.
Proof. by apply count_enqueueCalls_0. Qed.

(** [handleErr] never calls [Done], and leaves the keys in processing. *)
Lemma handleErr_no_Done (err : option error) (key : string) (q : QueueRef)
  (c : Controller) :
  ∃ l, trace (exec (handleErr err key q) c) = trace c ++ l
       ∧ (∀ q', count (isDoneOn q') l = 0)
       ∧ workqueue.processing (getQueue q (exec (handleErr err key q) c))
         = workqueue.processing (getQueue q c).
Proof.
  destruct err as [e|].
  - destruct (decide (workqueue.NumRequeues key (getQueue q c) < 5)) as [Hn|Hn].
    + destruct (handleErr_retries e key q c Hn) as [Ht Hq].
      eexists. split; [exact Ht|]. split; [done|]. by rewrite Hq.
    + destruct (handleErr_gives_up e key q c) as [Ht Hq]; [lia|].
      eexists. split; [exact Ht|]. split; [done|]. by rewrite Hq.
  - exists [QForget q key]. by destruct q.
Qed.

Lemma processClusterBody_clusterQueue (p : string) (c : Controller) :
  clusterQueue (exec (processClusterBody p) c) = clusterQueue c.
Proof.
  unfold exec, processClusterBody, mbind, State_bind, gets.
  destruct (indexer c !! p) as [o|]; [|done].
  destruct (Labels (Metadata o)); simpl; by destruct (bool_decide _).
Qed.

Lemma forEach_clusterQueue (ps : list string) (c : Controller) :
  clusterQueue (exec (forEach ps processClusterBody) c) = clusterQueue c.
Proof.
  revert c. induction ps as [|p ps IH]; intros c; [done|].
  change (forEach (p :: ps) processClusterBody)
    with (processClusterBody p ≫= λ _, forEach ps processClusterBody).
  by rewrite exec_bind, IH, processClusterBody_clusterQueue.
Qed.

Lemma processCluster_clusterQueue (key : string) (c : Controller) :
  clusterQueue (exec (processCluster key) c) = clusterQueue c.
Proof.
  unfold processCluster. rewrite exec_bind. unfold List at 1 2, result, exec at 2.
  destruct listErr; simpl; [done|].
  rewrite exec_bind. apply forEach_clusterQueue.
Qed.

(** Whatever key the topology queue hands out, the worker reports it done
    to the primary queue and never to the topology queue, where the key
    stays in processing. *)
Lemma processNextClusterWorkItem_Done (c : Controller) (key : string)
  (w : workqueue.RateLimitingInterface) :
  workqueue.Get (clusterQueue c) = Some (key, false, w) →
  ∃ c' l,
    processNextClusterWorkItem c = Some (true, c')
    ∧ issued c c' = QGet Topology :: l ++ [QDone Primary key]
    ∧ count (isDoneOn Topology) (issued c c') = 0
    ∧ key ∈ workqueue.processing (clusterQueue c').
Proof.
  intros Hget.
  assert (Hw : key ∈ workqueue.processing w).
  { unfold workqueue.Get in Hget. destruct (workqueue.items (clusterQueue c)).
    - by destruct (workqueue.shuttingDown _).
    - inversion Hget; subst. simpl. set_solver. }
  unfold processNextClusterWorkItem, Get. simpl. rewrite Hget.
  set (c1 := record (QGet Topology) (setQueue Topology w c)).
  rewrite run_bind.
  set (c2 := exec (processCluster key) c1).
  set (err := result (processCluster key) c1).
  rewrite run_bind. set (c3 := exec (handleErr err key Topology) c2).
  rewrite run_bind. set (c4 := exec (Done Primary key) c3).
  assert (H2 : trace c2 = trace c1
                 ++ match listErr with
                    | None => enqueueCall <$> List.filter isRoot (listed c1)
                    | Some _ => []
                    end).
  { pose proof (processCluster_issued key c1) as Hi. fold c2 in Hi.
    destruct listErr as [e|] eqn:E.
    - unfold c2, exec. rewrite (processCluster_list_failed key c1 e E).
      by rewrite app_nil_r.
    - by destruct (processCluster_listed key c1 E) as (_ & Ht & _). }
  destruct (handleErr_no_Done err key Topology c2) as (l3 & H3 & Hl3 & Hp3).
  fold c3 in H3, Hp3.
  exists c4. eexists. split; [done|].
  assert (Ht : trace c4 = trace c ++ QGet Topology ::
                 (match listErr with
                  | None => enqueueCall <$> List.filter isRoot (listed c1)
                  | Some _ => []
                  end ++ l3) ++ [QDone Primary key]).
  { unfold c4, exec, Done, modify. simpl. rewrite H3, H2. unfold c1. simpl.
    by rewrite <- !app_assoc. }
  rewrite (issued_app _ _ _ Ht). split; [done|]. split.
  - change (QGet Topology :: ?l ++ ?k) with ([QGet Topology] ++ l ++ k).
    rewrite !count_app, Hl3.
    destruct listErr; [done|]. by rewrite count_isDoneOn_enqueueCalls.
  - unfold c4, exec, Done, modify. simpl. simpl in Hp3. rewrite Hp3.
    unfold c2. by rewrite processCluster_clusterQueue.
Qed.

End properties.

(** ** Closed instances *)

Lemma process_deleted_object_succeeds_witness :
  result (process (wiring := steady) "default/gone") (NewController cacheX) = None
  ∧ count isPersistence
      (issued (NewController cacheX)
         (exec (process (wiring := steady) "default/gone") (NewController cacheX))) = 0
  ∧ exec (process (wiring := steady) "default/gone") (NewController cacheX)
    = NewController cacheX.
Proof.
  apply (process_deleted_object_succeeds (wiring := steady)); reflexivity.
Defined.

Lemma process_noop_issues_nothing_witness :
  result (process (wiring := steady) "default/x") (NewController cacheX) = None
  ∧ issued (NewController cacheX)
      (exec (process (wiring := steady) "default/x") (NewController cacheX)) = []
  ∧ count isPersistence
      (issued (NewController cacheX)
         (exec (process (wiring := steady) "default/x") (NewController cacheX))) = 0.
Proof.
  apply (process_noop_issues_nothing (wiring := steady) _ _ x); reflexivity.
Defined.

(** C1, at the resource [x] whose reported replicas reconcile raises from 2
    to 3 and whose specification and metadata it leaves alone: the code
    issues one [Update] carrying the new status and no [UpdateStatus],
    where the specification expects one [UpdateStatus] and no [Update]. *)
Theorem process_status_only_change_issues_Update :
  let c0 := NewController cacheX in
  let c := exec (process (wiring := statusOnly) "default/x") c0 in
  let x3 := deployment "default" "x" None 5 3 in
  indexer c0 !! "default/x" = Some x
  ∧ reconcile (Collaborators := statusOnly) x = (x3, None)
  ∧ Metadata x3 = Metadata x ∧ Spec x3 = Spec x ∧ Status x3 ≠ Status x
  ∧ result (process (wiring := statusOnly) "default/x") c0 = None
  ∧ issued c0 c = [Update "default" x3]
  ∧ count isUpdate (issued c0 c) = 1
  ∧ count isUpdateStatus (issued c0 c) = 0.
Proof.
  assert (E : issued (NewController cacheX)
                (exec (process (wiring := statusOnly) "default/x") (NewController cacheX))
              = [Update "default" (deployment "default" "x" None 5 3)]).
  { by rewrite (process_change_issues_Update (wiring := statusOnly) _ _ x). }
  simpl. rewrite E. repeat split; try done.
Qed.

(** C2, at a topology queue that holds the pending key [c1]: the worker
    takes the key from the topology queue and reports it done to the
    primary queue; the topology queue is never told, keeps the key in
    processing, and does not hand it out again when the next event for it
    arrives.  The specification expects [Done] on the topology queue. *)
Theorem topology_worker_reports_Done_to_primary_queue :
  let c0 := topologyPending cacheABC in
  let c := startClusterWorker (wiring := steady) 1 c0 in
  let again := delaysElapse Topology (exec (enqueueCluster (ObjCluster (cluster "c1"))) c) in
  processNextClusterWorkItem (wiring := steady) c0 = Some (true, c)
  ∧ issued c0 c
    = [QGet Topology; QAddRateLimited Primary "default/a";
       QAddRateLimited Primary "default/b"; QForget Topology "c1";
       QDone Primary "c1"]
  ∧ count (isDoneOn Topology) (issued c0 c) = 0
  ∧ count (isDoneOn Primary) (issued c0 c) = 1
  ∧ elements (workqueue.processing (clusterQueue c)) = ["c1"]
  ∧ workqueue.items (clusterQueue again) = []
  ∧ Get Topology again = None.
Proof. vm_compute. repeat split. Qed.

(** The worker of the primary queue, for comparison, reports the key done
    to the queue it took it from. *)
Lemma primary_worker_reports_Done_to_primary_queue :
  let c0 := primaryPending cacheX in
  let c := startWorker (wiring := steady) 1 c0 in
  processNextWorkItem (wiring := steady) c0 = Some (true, c)
  ∧ issued c0 c = [QGet Primary; QForget Primary "default/x"; QDone Primary "default/x"]
  ∧ elements (workqueue.processing (queue c)) = [].
Proof. vm_compute. repeat split. Qed.

(** C3 as stated fails: [processCluster] writes to a cached object whose
    label map is nil. *)
Lemma processCluster_writes_to_cached_object :
  ¬ ∀ key d,
      indexer (NewController cacheX) !! key = Some d →
      indexer (exec (processCluster (wiring := steady) "c1") (NewController cacheX))
        !! key = Some d.
Proof.
  intros Hc. specialize (Hc "default/x" x eq_refl).
  vm_compute in Hc. discriminate Hc.
Qed.

(** C4 as stated fails: the enqueue of an added deployment is no [Add]. *)
Lemma enqueue_is_not_an_Add :
  ¬ enqueuedByAdd Primary "default/x" (NewController cacheX)
      (exec (notify deploymentHandlers (OnAdd (ObjDeployment x))) (NewController cacheX)).
Proof. intros [E _]. vm_compute in E. discriminate E. Qed.

Lemma event_enqueue_is_rate_limited_witness :
  enqueuedRateLimited Primary "default/x" (NewController cacheABC)
    (exec (enqueue (ObjDeployment x)) (NewController cacheABC))
  ∧ enqueuedRateLimited Topology "default/x" (NewController cacheABC)
      (exec (enqueueCluster (ObjDeployment x)) (NewController cacheABC))
  ∧ count isAddRateLimited
      (issued (NewController cacheABC)
         (exec (processCluster (wiring := steady) "c1") (NewController cacheABC)))
    = length
        (issued (NewController cacheABC)
           (exec (processCluster (wiring := steady) "c1") (NewController cacheABC)))
  ∧ count isAdd
      (issued (NewController cacheABC)
         (exec (processCluster (wiring := steady) "c1") (NewController cacheABC))) = 0.
Proof.
  apply (event_enqueue_is_rate_limited (wiring := steady)). reflexivity.
Defined.

(** C5 as stated fails: the delete notification of a deployment enqueues
    nothing. *)
Lemma deployment_delete_is_not_enqueued :
  ¬ enqueuedOn Primary (NewController cacheX)
      (exec (notify deploymentHandlers (OnDelete (ObjDeployment x))) (NewController cacheX)).
Proof.
  intros [k [Hk|Hk]]; vm_compute in Hk; by apply elem_of_nil in Hk.
Qed.

(** The rebalance of the roots [a] and [b] and of [c], derived from [a]. *)
Lemma processCluster_enqueues_roots_a_b :
  result (processCluster (wiring := steady) "c1") (NewController cacheABC) = None
  ∧ issued (NewController cacheABC)
      (exec (processCluster (wiring := steady) "c1") (NewController cacheABC))
    = [QAddRateLimited Primary "default/a"; QAddRateLimited Primary "default/b"]
  ∧ processCluster (wiring := listFails) "c1" (NewController cacheABC)
    = (Some (Err "list failed"), NewController cacheABC).
Proof. vm_compute. repeat split. Qed.

(** A key whose reconcile always fails, run through the worker of the
    primary queue: six attempts, five rate-limited re-enqueues, then the
    key is forgotten, the error reported, and the queue is empty. *)
Lemma failing_key_is_dropped_after_five_retries :
  let c0 := primaryPending cacheX in
  let c := startWorkerWithDelays (wiring := reconcileAlwaysFails) 20 c0 in
  count isAddRateLimited (issued c0 c) = 5
  ∧ length (List.filter (λ e, bool_decide (e = QGet Primary)) (issued c0 c)) = 6
  ∧ List.filter (λ e, bool_decide (e = HandleError (Err "boom"))) (issued c0 c)
    = [HandleError (Err "boom")]
  ∧ workqueue.items (queue c) = []
  ∧ workqueue.waiting (queue c) = []
  ∧ workqueue.NumRequeues "default/x" (queue c) = 0.
Proof. vm_compute. repeat split. Qed.

(** * Further properties of the code *)

Section further_properties.

Context `{wiring : Collaborators}.

(** ** [process] *)

Lemma process_frame (key : string) (c : Controller) :
  queue (exec (process key) c) = queue c
  ∧ clusterQueue (exec (process key) c) = clusterQueue c
  ∧ ∃ l, trace (exec (process key) c) = trace c ++ l
         ∧ length l ≤ 1 ∧ count isPersistence l = length l.
Proof.
  unfold exec. destruct (getByKeyErr key) as [e|] eqn:Hg.
  { rewrite (process_get_failed _ _ _ Hg). simpl.
    do 2 (split; [done|]). exists []. rewrite app_nil_r. auto. }
  destruct (indexer c !! key) as [d|] eqn:Hd.
  2:{ rewrite (process_absent _ _ Hg Hd). simpl.
      do 2 (split; [done|]). exists []. rewrite app_nil_r. auto. }
  rewrite (process_found _ _ _ Hg Hd). simpl.
  destruct (reconcile d).2; simpl.
  { do 2 (split; [done|]). exists []. rewrite app_nil_r. auto. }
  destruct (equality.DeepEqual _ _); simpl.
  { do 2 (split; [done|]). exists []. rewrite app_nil_r. auto. }
  do 2 (split; [done|]). eexists. split; [done|]. auto.
Qed.

(** X1: [process] issues at most one call, a write through the API client, and
    never touches either queue. *)
Theorem process_leaves_the_queues (key : string) (c : Controller) :
  queue (exec (process key) c) = queue c
  ∧ clusterQueue (exec (process key) c) = clusterQueue c
  ∧ length (issued c (exec (process key) c)) ≤ 1
  ∧ count isPersistence (issued c (exec (process key) c))
    = length (issued c (exec (process key) c)).
Proof.
  unfold exec. destruct (getByKeyErr key) as [e|] eqn:Hg.
  { rewrite (process_get_failed _ _ _ Hg). simpl. by rewrite issued_nil; auto. }
  destruct (indexer c !! key) as [d|] eqn:Hd.
  2:{ rewrite (process_absent _ _ Hg Hd). simpl. by rewrite issued_nil; auto. }
  rewrite (process_found _ _ _ Hg Hd). simpl.
  destruct (reconcile d).2; simpl; [by rewrite issued_nil; auto|].
  destruct (equality.DeepEqual _ _); simpl; [by rewrite issued_nil; auto|].
  by rewrite (issued_app _ _ [Update (Namespace (Metadata (reconcile d).1)) (reconcile d).1]).
Qed.

(** X2: when reconcile fails, [process] returns its error unchanged and writes
    nothing through the API client, yet the cached object stays as the
    failed reconcile left it. *)
Theorem process_reconcile_failure (key : string) (c : Controller) (d : Deployment)
  (e : error) :
  getByKeyErr key = None → indexer c !! key = Some d →
  (reconcile d).2 = Some e →
  result (process key) c = Some e
  ∧ issued c (exec (process key) c) = []
  ∧ indexer (exec (process key) c) !! key = Some (reconcile d).1.
Proof.
  intros Hg Hd Hr. unfold result, exec. rewrite (process_found _ _ _ Hg Hd).
  simpl. rewrite Hr. simpl. rewrite issued_nil by done.
  by rewrite lookup_insert_eq.
Qed.

(** X3: the pass after one that issued an [Update]: the cache, not refreshed in
    between, already holds the reconciled object, so when reconcile leaves
    that object as it is the second pass takes it for the snapshot, issues
    nothing and reports success, whether the [Update] of the first pass was
    accepted or refused. *)
Theorem process_does_not_repeat_Update (key : string) (c : Controller)
  (d : Deployment) :
  getByKeyErr key = None → indexer c !! key = Some d →
  (reconcile d).2 = None →
  equality.DeepEqual d (reconcile d).1 = false →
  (reconcile (reconcile d).1).2 = None →
  equality.DeepEqual (reconcile d).1 (reconcile (reconcile d).1).1 = true →
  result (process key) c = updateErr (reconcile d).1
  ∧ issued c (exec (process key) c)
    = [Update (Namespace (Metadata (reconcile d).1)) (reconcile d).1]
  ∧ result (process key) (exec (process key) c) = None
  ∧ issued (exec (process key) c) (exec (process key) (exec (process key) c)) = [].
Proof.
  intros Hg Hd Hr He Hr' He'.
  assert (H1 : process key c
               = (updateErr (reconcile d).1,
                  record (Update (Namespace (Metadata (reconcile d).1)) (reconcile d).1)
                    (setIndexer (<[key := (reconcile d).1]> (indexer c)) c))).
  { rewrite (process_found _ _ _ Hg Hd). simpl. by rewrite Hr, He. }
  unfold result, exec. rewrite H1. simpl.
  split; [done|]. split; [by apply issued_app|].
  rewrite (process_found _ _ (reconcile d).1 Hg) by (simpl; apply lookup_insert_eq).
  simpl. rewrite Hr', He'. simpl. split; [done|]. by apply issued_nil.
Qed.

(** ** The event handlers *)

(** X4: an object without identity metadata, such as the tombstone of a missed
    deletion, is reported to the error sink and not enqueued: neither
    handler touches a queue, for any of the three notifications. *)
Theorem notification_without_key_is_dropped (obj old : Object) (err : error)
  (c : Controller) :
  MetaNamespaceKeyFunc obj = inr err →
  exec (enqueue obj) c = record (HandleError err) c
  ∧ exec (enqueueCluster obj) c = record (HandleError err) c
  ∧ exec (notify clusterHandlers (OnAdd obj)) c = record (HandleError err) c
  ∧ exec (notify clusterHandlers (OnUpdate old obj)) c = record (HandleError err) c
  ∧ exec (notify clusterHandlers (OnDelete obj)) c = record (HandleError err) c
  ∧ exec (notify deploymentHandlers (OnAdd obj)) c = record (HandleError err) c
  ∧ exec (notify deploymentHandlers (OnUpdate old obj)) c = record (HandleError err) c.
Proof.
  intros E. unfold notify, clusterHandlers, deploymentHandlers, enqueue,
    enqueueCluster. simpl. rewrite E. by repeat split.
Qed.

(** ** [handleErr] *)

Lemma enqueue_iter_NumRequeues (obj : Object) (key : string) (c : Controller)
  (n : nat) :
  MetaNamespaceKeyFunc obj = inl key →
  workqueue.NumRequeues key (queue (Nat.iter n (exec (enqueue obj)) c))
  = workqueue.NumRequeues key (queue c) + n.
Proof.
  intros Hk. rewrite (enqueue_keyed _ _ Hk).
  induction n as [|n IH]; [simpl; lia|].
  change (Nat.iter (S n) (exec (AddRateLimited Primary key)) c)
    with (exec (AddRateLimited Primary key)
            (Nat.iter n (exec (AddRateLimited Primary key)) c)).
  change (queue (exec (AddRateLimited Primary key) ?c'))
    with (workqueue.AddRateLimited key (queue c')).
  rewrite NumRequeues_AddRateLimited, IH. lia.
Qed.

(** X5: the enqueues of the event handlers count against the retry budget of
    the key: after five of them or more, with no successful pass in
    between, the first failure of the handler is dropped without any
    retry. *)
Theorem enqueues_spend_the_retry_budget (obj : Object) (key : string) (e : error)
  (c : Controller) (n : nat) :
  MetaNamespaceKeyFunc obj = inl key → 5 ≤ n →
  workqueue.NumRequeues key (queue (Nat.iter n (exec (enqueue obj)) c))
  = workqueue.NumRequeues key (queue c) + n
  ∧ issued (Nat.iter n (exec (enqueue obj)) c)
      (exec (handleErr (Some e) key Primary) (Nat.iter n (exec (enqueue obj)) c))
    = [QNumRequeues Primary key; QForget Primary key; HandleError e].
Proof.
  intros Hk Hn. pose proof (enqueue_iter_NumRequeues obj key c n Hk) as Hc.
  split; [done|].
  destruct (handleErr_gives_up e key Primary (Nat.iter n (exec (enqueue obj)) c))
    as [Ht _]; [simpl; lia|].
  by apply issued_app.
Qed.

(** X6: a success gives the key its whole retry budget back: [handleErr] with
    the nil error only forgets the key, whatever its counter was, and the
    five failures that follow are all re-enqueued. *)
Theorem handleErr_success_restores_budget (e : error) (key : string) (q : QueueRef)
  (c : Controller) :
  issued c (exec (handleErr None key q) c) = [QForget q key]
  ∧ workqueue.NumRequeues key (getQueue q (exec (handleErr None key q) c)) = 0
  ∧ workqueue.items (getQueue q (exec (handleErr None key q) c))
    = workqueue.items (getQueue q c)
  ∧ workqueue.waiting (getQueue q (exec (handleErr None key q) c))
    = workqueue.waiting (getQueue q c)
  ∧ issued (exec (handleErr None key q) c)
      (Nat.iter 5 (exec (handleErr (Some e) key q)) (exec (handleErr None key q) c))
    = concat (replicate 5 [QNumRequeues q key; QAddRateLimited q key]).
Proof.
  assert (Hq : getQueue q (exec (handleErr None key q) c)
               = workqueue.Forget key (getQueue q c)) by (by destruct q).
  rewrite Hq, NumRequeues_Forget.
  split; [apply issued_app; by destruct q|].
  split; [done|]. split; [done|]. split; [done|].
  destruct (handleErr_iter e key q (exec (handleErr None key q) c) 5) as [Ht _].
  { rewrite Hq, NumRequeues_Forget. lia. }
  by apply issued_app.
Qed.

(** ** The worker of the primary queue *)

Lemma doneOn_app (q : QueueRef) (l k : list Call) :
  doneOn q (l ++ k) = doneOn q l ++ doneOn q k.
Proof. apply omap_app. Qed.

Lemma Get_Some (w w' : workqueue.RateLimitingInterface) (key : string) :
  workqueue.Get w = Some (key, false, w') →
  workqueue.items w = key :: workqueue.items w'
  ∧ workqueue.dirty w' = workqueue.dirty w ∖ {[key]}
  ∧ workqueue.processing w' = {[key]} ∪ workqueue.processing w
  ∧ workqueue.shuttingDown w' = workqueue.shuttingDown w.
Proof.
  unfold workqueue.Get. destruct (workqueue.items w) as [|k rest].
  - by destruct (workqueue.shuttingDown w).
  - intros [= -> <-]. done.
Qed.

(** What [handleErr] does not do: it reports no key done, takes none, and
    changes neither the pending, dirty and processing keys of its queue,
    nor the other queue, nor the cache. *)
Lemma handleErr_effect (err : option error) (key : string) (q : QueueRef)
  (c : Controller) :
  ∃ l, trace (exec (handleErr err key q) c) = trace c ++ l
       ∧ (∀ q', doneOn q' l = [])
       ∧ (∀ q', count (isGetOn q') l = 0)
       ∧ workqueue.items (getQueue q (exec (handleErr err key q) c))
         = workqueue.items (getQueue q c)
       ∧ workqueue.dirty (getQueue q (exec (handleErr err key q) c))
         = workqueue.dirty (getQueue q c)
       ∧ workqueue.processing (getQueue q (exec (handleErr err key q) c))
         = workqueue.processing (getQueue q c)
       ∧ workqueue.shuttingDown (getQueue q (exec (handleErr err key q) c))
         = workqueue.shuttingDown (getQueue q c)
       ∧ (∀ q', q' ≠ q → getQueue q' (exec (handleErr err key q) c) = getQueue q' c)
       ∧ indexer (exec (handleErr err key q) c) = indexer c.
Proof.
  unfold exec, handleErr, mbind, State_bind, NumRequeues, AddRateLimited, Forget,
    runtime_HandleError, modify.
  destruct err as [e|]; simpl; [case_bool_decide|].
  - exists [QNumRequeues q key; QAddRateLimited q key].
    destruct q; simpl; rewrite <- ?app_assoc;
      repeat split; try done; by intros [].
  - exists [QNumRequeues q key; QForget q key; HandleError e].
    destruct q; simpl; rewrite <- ?app_assoc;
      repeat split; try done; by intros [].
  - exists [QForget q key].
    destruct q; simpl; repeat split; try done; by intros [].
Qed.

(** A turn of the worker of the primary queue that was handed [key]. *)
Lemma processNextWorkItem_turn (c : Controller) (key : string)
  (w : workqueue.RateLimitingInterface) :
  workqueue.Get (queue c) = Some (key, false, w) →
  ∃ c' l,
    processNextWorkItem c = Some (true, c')
    ∧ trace c' = trace c ++ QGet Primary :: l ++ [QDone Primary key]
    ∧ (∀ q, doneOn q l = [])
    ∧ (∀ q, count (isGetOn q) l = 0)
    ∧ workqueue.items (queue c') = workqueue.items w
    ∧ workqueue.dirty (queue c') = workqueue.dirty w
    ∧ workqueue.processing (queue c') = workqueue.processing w ∖ {[key]}
    ∧ workqueue.shuttingDown (queue c') = workqueue.shuttingDown w
    ∧ clusterQueue c' = clusterQueue c.
Proof.
  intros Hget. destruct (Get_Some _ _ _ Hget) as (Hi & Hd & Hp & Hs).
  unfold processNextWorkItem, Get. simpl. rewrite Hget.
  set (c1 := record (QGet Primary) (setQueue Primary w c)).
  rewrite run_bind.
  set (c2 := exec (process key) c1). set (err := result (process key) c1).
  rewrite run_bind. set (c3 := exec (handleErr err key Primary) c2).
  rewrite run_bind. set (c4 := exec (Done Primary key) c3).
  destruct (process_frame key c1) as (Hq2 & Hcq2 & _). fold c2 in Hq2, Hcq2.
  assert (H2 : ∃ l2, trace c2 = trace c1 ++ l2
                     ∧ (∀ q, doneOn q l2 = []) ∧ (∀ q, count (isGetOn q) l2 = 0)).
  { destruct (process_trace key c1) as [E|(ns & d & E)]; fold c2 in E.
    - exists []. by rewrite app_nil_r.
    - by exists [Update ns d]. }
  destruct H2 as (l2 & H2 & Hd2 & Hg2).
  destruct (handleErr_effect err key Primary c2)
    as (l3 & H3 & Hd3 & Hg3 & Hi3 & Hdi3 & Hp3 & Hs3 & Ho3 & _).
  fold c3 in H3, Hi3, Hdi3, Hp3, Hs3, Ho3. simpl in Hi3, Hdi3, Hp3, Hs3.
  specialize (Ho3 Topology). simpl in Ho3.
  rewrite Hq2 in Hi3, Hdi3, Hp3, Hs3.
  assert (Hnd : key ∉ workqueue.dirty (queue c3)).
  { rewrite Hdi3. unfold c1. simpl. rewrite Hd.
    apply not_elem_of_difference. right. by apply elem_of_singleton. }
  exists c4, (l2 ++ l3). split; [done|].
  unfold c4, exec, Done, modify. simpl.
  rewrite (bool_decide_eq_false_2 _ Hnd), Hi3, Hdi3, Hp3, Hs3, H3, H2.
  rewrite Ho3 by done. rewrite Hcq2.
  split; [unfold c1; simpl; by rewrite <- !app_assoc|].
  split; [intros q; by rewrite doneOn_app, Hd2, Hd3|].
  split; [intros q; by rewrite count_app, Hg2, Hg3|].
  done.
Qed.

(** X7: every key the primary queue hands out is reported done to that same
    queue at the end of the turn, whatever [process] returned; the worker
    carries on (it returns true), no longer holds the key, and has not
    touched the topology queue. *)
Theorem primary_worker_pairs_Get_and_Done (c : Controller) (key : string)
  (w : workqueue.RateLimitingInterface) :
  workqueue.Get (queue c) = Some (key, false, w) →
  ∃ c', processNextWorkItem c = Some (true, c')
        ∧ doneOn Primary (issued c c') = [key]
        ∧ doneOn Topology (issued c c') = []
        ∧ last (issued c c') = Some (QDone Primary key)
        ∧ (key ∉ workqueue.processing (queue c'))
        ∧ clusterQueue c' = clusterQueue c.
Proof.
  intros Hget.
  destruct (processNextWorkItem_turn c key w Hget)
    as (c' & l & Hrun & Ht & Hd & _ & _ & _ & Hp & _ & Hcq).
  exists c'. split; [done|]. rewrite (issued_app _ _ _ Ht).
  change (QGet Primary :: l ++ [QDone Primary key])
    with ([QGet Primary] ++ l ++ [QDone Primary key]).
  rewrite !doneOn_app, !Hd. simpl.
  split; [done|]. split; [done|].
  split; [by rewrite app_comm_cons, last_snoc|]. split; [|done].
  rewrite Hp. apply not_elem_of_difference. right. by apply elem_of_singleton.
Qed.

Lemma startWorker_drains (n : nat) :
  ∀ (c : Controller) (fuel : nat),
    length (workqueue.items (queue c)) = n → n < fuel →
    workqueue.shuttingDown (queue c) = true →
    ∃ l, trace (startWorker fuel c) = trace c ++ l
         ∧ doneOn Primary l = workqueue.items (queue c)
         ∧ count (isGetOn Primary) l = S n
         ∧ workqueue.items (queue (startWorker fuel c)) = [].
Proof.
  induction n as [|n IH]; intros c fuel Hlen Hfuel Hshut;
    (destruct fuel as [|fuel]; [lia|]); cbn [startWorker].
  - destruct (workqueue.items (queue c)) as [|k rest] eqn:Hi; [|done].
    unfold processNextWorkItem, Get, workqueue.Get. simpl. rewrite Hi, Hshut.
    exists [QGet Primary]. by destruct c.
  - destruct (workqueue.items (queue c)) as [|key rest] eqn:Hi; [done|].
    assert (Hget : workqueue.Get (queue c)
                   = Some (key, false,
                           {| workqueue.items := rest;
                              workqueue.dirty := workqueue.dirty (queue c) ∖ {[key]};
                              workqueue.processing := {[key]} ∪ workqueue.processing (queue c);
                              workqueue.waiting := workqueue.waiting (queue c);
                              workqueue.failures := workqueue.failures (queue c);
                              workqueue.shuttingDown := workqueue.shuttingDown (queue c) |})).
    { unfold workqueue.Get. by rewrite Hi. }
    destruct (processNextWorkItem_turn c key _ Hget)
      as (c' & l & Hrun & Ht & Hd & Hg & Hi' & _ & _ & Hs' & _).
    rewrite Hrun. simpl in Hi', Hs'.
    destruct (IH c' fuel) as (l' & Ht' & Hd' & Hg' & He').
    { rewrite Hi'. simpl in Hlen. lia. }
    { lia. }
    { by rewrite Hs'. }
    exists ((QGet Primary :: l ++ [QDone Primary key]) ++ l').
    split; [by rewrite Ht', Ht, <- app_assoc|].
    change (QGet Primary :: l ++ [QDone Primary key])
      with ([QGet Primary] ++ l ++ [QDone Primary key]).
    rewrite !doneOn_app, !count_app, Hd, Hg, Hd', Hg', Hi'. simpl.
    split; [done|]. split; [|done]. lia.
Qed.

(** X8: once the primary queue is shut down, the worker loop works off the keys
    still pending, each in one turn and in order, and then leaves: with
    any fuel above their number it stops after the turn in which [Get]
    reports the shutdown. *)
Theorem worker_drains_after_shutdown (c : Controller) (fuel : nat) :
  workqueue.shuttingDown (queue c) = true →
  length (workqueue.items (queue c)) < fuel →
  doneOn Primary (issued c (startWorker fuel c)) = workqueue.items (queue c)
  ∧ count (isGetOn Primary) (issued c (startWorker fuel c))
    = S (length (workqueue.items (queue c)))
  ∧ workqueue.items (queue (startWorker fuel c)) = [].
Proof.
  intros Hshut Hfuel.
  destruct (startWorker_drains _ c fuel eq_refl Hfuel Hshut) as (l & Ht & Hd & Hg & He).
  by rewrite (issued_app _ _ _ Ht).
Qed.

(** ** [processCluster] *)

Lemma allocLabels_idemp (d : Deployment) : allocLabels (allocLabels d) = allocLabels d.
Proof. unfold allocLabels. by destruct d as [[ns n [l|]] sp st]. Qed.

Lemma filter_isRoot_allocLabels (l : list Deployment) :
  List.filter isRoot (allocLabels <$> l) = allocLabels <$> List.filter isRoot l.
Proof.
  induction l as [|d l IH]; csimpl; [done|].
  rewrite isRoot_allocLabels. destruct (isRoot d); csimpl; by rewrite IH.
Qed.

Lemma listed_allocLabels (c c' : Controller) :
  indexer c' = allocLabels <$> indexer c → listed c' = allocLabels <$> listed c.
Proof.
  intros E. unfold listed. rewrite E, map_to_list_fmap.
  induction (map_to_list (indexer c)) as [|[k d] l IH]; csimpl; [done|].
  by rewrite IH.
Qed.

(** X9: a second rebalance right after the first issues the same enqueues,
    up to the order of the listing, and writes nothing more to the cache:
    the label maps the first one allocated change neither the keys nor
    which resources are roots. *)
Theorem processCluster_twice (key key' : string) (c : Controller) :
  indexer (exec (processCluster key') (exec (processCluster key) c))
  = indexer (exec (processCluster key) c)
  ∧ issued (exec (processCluster key) c)
      (exec (processCluster key') (exec (processCluster key) c))
    ≡ₚ issued c (exec (processCluster key) c).
Proof.
  rewrite !processCluster_issued.
  destruct listErr as [e|] eqn:E.
  - unfold exec. by rewrite !(processCluster_list_failed _ _ e E).
  - destruct (processCluster_listed key c E) as (_ & _ & Hi).
    destruct (processCluster_listed key' (exec (processCluster key) c) E)
      as (_ & _ & Hi').
    split.
    + rewrite Hi', Hi, <- map_fmap_compose. apply map_fmap_ext.
      intros k d _. apply allocLabels_idemp.
    + rewrite (listed_allocLabels _ _ Hi), filter_isRoot_allocLabels,
        <- list_fmap_compose.
      erewrite list_fmap_ext; [reflexivity|].
      intros i d _. apply enqueueCall_allocLabels.
Qed.

Lemma processClusterBody_queue (p : string) (c : Controller) (o : Deployment) :
  indexer c !! p = Some o →
  queue (exec (processClusterBody p) c)
  = if isRoot o then workqueue.AddRateLimited (metaKey (Metadata o)) (queue c)
    else queue c.
Proof.
  intros E. unfold exec, processClusterBody, mbind, State_bind, gets. rewrite E.
  fold (allocLabels o). fold (isRoot (allocLabels o)). rewrite isRoot_allocLabels.
  assert (Hk : metaKey (Metadata (allocLabels o)) = metaKey (Metadata o)).
  { unfold allocLabels. by destruct o as [[ns n [l|]] sp st]. }
  destruct (Labels (Metadata o)); simpl; destruct (isRoot o); simpl; try done;
    unfold enqueue; simpl; by rewrite ?Hk.
Qed.

Lemma forEach_processClusterBody_queue (ps : list string) :
  NoDup ps →
  ∀ c : Controller,
    queue (exec (forEach ps processClusterBody) c)
    = addAllRateLimited
        ((λ d, metaKey (Metadata d))
           <$> List.filter isRoot (omap (λ p, indexer c !! p) ps))
        (queue c).
Proof.
  induction ps as [|p ps IH]; intros Hnd c; [done|].
  apply NoDup_cons in Hnd as [Hp Hnd].
  change (forEach (p :: ps) processClusterBody)
    with (processClusterBody p ≫= λ _, forEach ps processClusterBody).
  rewrite exec_bind, (IH Hnd). csimpl.
  destruct (indexer c !! p) as [o|] eqn:E.
  - destruct (processClusterBody_found p c o E) as [_ Hi].
    rewrite (processClusterBody_queue p c o E).
    rewrite (omap_ext_elem (λ q, indexer (exec (processClusterBody p) c) !! q)
               (λ q, indexer c !! q)).
    2:{ intros q Hq. rewrite Hi. apply lookup_insert_ne. by intros ->. }
    csimpl. by destruct (isRoot o).
  - by rewrite (processClusterBody_absent p c E).
Qed.

Lemma addAllRateLimited_items (keys : list string)
  (w : workqueue.RateLimitingInterface) :
  workqueue.items (addAllRateLimited keys w) = workqueue.items w
  ∧ workqueue.dirty (addAllRateLimited keys w) = workqueue.dirty w
  ∧ workqueue.processing (addAllRateLimited keys w) = workqueue.processing w.
Proof.
  revert w. induction keys as [|k keys IH]; intros w; [done|].
  unfold addAllRateLimited in *. simpl. by destruct (IH (workqueue.AddRateLimited k w)) as (-> & -> & ->).
Qed.

(** X10: a rebalance makes no key pending by itself: on the primary queue it
    amounts to the rate-limited adds of the keys of the listed roots, one
    after the other, which leave the pending, dirty and processing keys as
    they were; the topology queue is not touched. *)
Theorem processCluster_only_schedules (key : string) (c : Controller) :
  queue (exec (processCluster key) c)
  = match listErr with
    | None =>
        addAllRateLimited
          ((λ d, metaKey (Metadata d)) <$> List.filter isRoot (listed c)) (queue c)
    | Some _ => queue c
    end
  ∧ workqueue.items (queue (exec (processCluster key) c)) = workqueue.items (queue c)
  ∧ workqueue.dirty (queue (exec (processCluster key) c)) = workqueue.dirty (queue c)
  ∧ workqueue.processing (queue (exec (processCluster key) c))
    = workqueue.processing (queue c)
  ∧ clusterQueue (exec (processCluster key) c) = clusterQueue c.
Proof.
  assert (Hq : queue (exec (processCluster key) c)
               = match listErr with
                 | None =>
                     addAllRateLimited
                       ((λ d, metaKey (Metadata d)) <$> List.filter isRoot (listed c))
                       (queue c)
                 | Some _ => queue c
                 end).
  { destruct listErr as [e|] eqn:E.
    - unfold exec. by rewrite (processCluster_list_failed key c e E).
    - unfold processCluster. rewrite exec_bind.
      unfold List at 1 2, result, exec at 2. rewrite E. simpl.
      rewrite exec_bind.
      change (queue (exec (forEach (map_to_list (indexer c)).*1 processClusterBody) c)
              = addAllRateLimited
                  ((λ d, metaKey (Metadata d)) <$> List.filter isRoot (listed c))
                  (queue c)).
      rewrite (forEach_processClusterBody_queue _ (NoDup_fst_map_to_list (indexer c))).
      unfold listed. rewrite omap_lookup_pairs; [done|].
      intros k v. apply elem_of_map_to_list. }
  split; [done|]. rewrite Hq, processCluster_clusterQueue.
  destruct listErr; [done|].
  by destruct (addAllRateLimited_items
                 ((λ d, metaKey (Metadata d)) <$> List.filter isRoot (listed c))
                 (queue c)) as (-> & -> & ->).
Qed.

(** ** The topology queue over a whole run *)

Lemma wellFormed_New : wellFormed workqueue.NewRateLimitingQueue.
Proof. split; [constructor|]. intros k Hk. by apply elem_of_nil in Hk. Qed.

Lemma wellFormed_sameKeys (w w' : workqueue.RateLimitingInterface) :
  sameKeys w w' → wellFormed w → wellFormed w'.
Proof. unfold wellFormed. by intros (-> & -> & ->). Qed.

Lemma wellFormed_Add (item : string) (w : workqueue.RateLimitingInterface) :
  wellFormed w →
  wellFormed (workqueue.Add item w)
  ∧ workqueue.processing (workqueue.Add item w) = workqueue.processing w.
Proof.
  intros [Hnd Hin]. unfold workqueue.Add.
  destruct (workqueue.shuttingDown w); [done|].
  case_bool_decide as Hd; [done|].
  case_bool_decide as Hp; (split; [|done]); split; simpl.
  - done.
  - intros k Hk. destruct (Hin k Hk) as [? ?]. split; [|done].
    apply elem_of_union. by right.
  - apply NoDup_app. split; [done|]. split; [|apply NoDup_singleton].
    intros k Hk ->%list_elem_of_singleton. by destruct (Hin item Hk).
  - intros k [Hk| ->%list_elem_of_singleton]%elem_of_app.
    + destruct (Hin k Hk) as [? ?]. split; [|done]. apply elem_of_union. by right.
    + split; [|done]. apply elem_of_union. left. by apply elem_of_singleton.
Qed.

Lemma wellFormed_Get (w w' : workqueue.RateLimitingInterface) (key : string) :
  workqueue.Get w = Some (key, false, w') → wellFormed w →
  wellFormed w' ∧ key ∈ workqueue.processing w'
  ∧ workqueue.processing w ⊆ workqueue.processing w'.
Proof.
  intros Hget [Hnd Hin]. destruct (Get_Some _ _ _ Hget) as (Hi & Hd & Hp & _).
  rewrite Hi in Hnd, Hin. apply NoDup_cons in Hnd as [Hk Hnd].
  split; [split; [done|]|].
  - intros k Hkin. destruct (Hin k) as [? ?]; [by right|].
    assert (k ≠ key) by (by intros ->).
    rewrite Hd, Hp. split.
    + apply elem_of_difference. split; [done|]. by intros ?%elem_of_singleton.
    + by intros [?%elem_of_singleton|?]%elem_of_union.
  - rewrite Hp. split.
    + apply elem_of_union. left. by apply elem_of_singleton.
    + intros k ?. apply elem_of_union. by right.
Qed.

Lemma Get_quit (w w' : workqueue.RateLimitingInterface) (key : string) :
  workqueue.Get w = Some (key, true, w') → w' = w.
Proof.
  unfold workqueue.Get. destruct (workqueue.items w); [|done].
  destruct (workqueue.shuttingDown w); [|done]. by intros [= _ <-].
Qed.

(** A turn of the worker of the topology queue that was handed [key]: the
    keys of the topology queue are as [Get] left them. *)
Lemma processNextClusterWorkItem_turn (c : Controller) (key : string)
  (w : workqueue.RateLimitingInterface) :
  workqueue.Get (clusterQueue c) = Some (key, false, w) →
  ∃ c', processNextClusterWorkItem c = Some (true, c')
        ∧ sameKeys w (clusterQueue c').
Proof.
  intros Hget. unfold processNextClusterWorkItem, Get. simpl. rewrite Hget.
  set (c1 := record (QGet Topology) (setQueue Topology w c)).
  rewrite run_bind.
  set (c2 := exec (processCluster key) c1). set (err := result (processCluster key) c1).
  rewrite run_bind. set (c3 := exec (handleErr err key Topology) c2).
  rewrite run_bind. set (c4 := exec (Done Primary key) c3).
  exists c4. split; [done|].
  destruct (handleErr_effect err key Topology c2)
    as (_ & _ & _ & _ & Hi3 & Hd3 & Hp3 & _).
  fold c3 in Hi3, Hd3, Hp3. simpl in Hi3, Hd3, Hp3.
  assert (H2 : clusterQueue c2 = w) by (unfold c2; by rewrite processCluster_clusterQueue).
  rewrite H2 in Hi3, Hd3, Hp3. by split.
Qed.

(** No event breaks the topology queue's order or takes a key out of its
    processing set: nothing in the controller ever reports a key done to
    that queue. *)
Lemma step_topology (ev : Event) (c c' : Controller) :
  step ev c = Some c' → wellFormed (clusterQueue c) →
  wellFormed (clusterQueue c')
  ∧ workqueue.processing (clusterQueue c) ⊆ workqueue.processing (clusterQueue c').
Proof.
  intros Hstep Hwf.
  assert (Hsame : ∀ c2, clusterQueue c2 = clusterQueue c →
            wellFormed (clusterQueue c2)
            ∧ workqueue.processing (clusterQueue c) ⊆ workqueue.processing (clusterQueue c2)).
  { by intros c2 ->. }
  destruct ev as [n|n|q| | |]; simpl in Hstep.
  - injection Hstep as <-. apply Hsame.
    destruct n as [obj|old obj|obj]; simpl; [| |done];
      unfold exec, enqueue; by destruct (MetaNamespaceKeyFunc obj).
  - injection Hstep as <-.
    assert (Hk : sameKeys (clusterQueue c)
                   (clusterQueue (exec (notify clusterHandlers n) c))).
    { destruct n as [obj|old obj|obj]; simpl;
        unfold exec, enqueueCluster; by destruct (MetaNamespaceKeyFunc obj). }
    split; [by apply (wellFormed_sameKeys _ _ Hk)|].
    destruct Hk as (_ & _ & ->). done.
  - injection Hstep as <-. destruct q; [by apply Hsame|]. simpl.
    unfold workqueue.delayElapsed.
    destruct (workqueue.waiting (clusterQueue c)) as [|item rest]; [done|].
    destruct (wellFormed_Add item
                {| workqueue.items := workqueue.items (clusterQueue c);
                   workqueue.dirty := workqueue.dirty (clusterQueue c);
                   workqueue.processing := workqueue.processing (clusterQueue c);
                   workqueue.waiting := rest;
                   workqueue.failures := workqueue.failures (clusterQueue c);
                   workqueue.shuttingDown := workqueue.shuttingDown (clusterQueue c) |})
      as [Hwf' Hp']; [done|].
    split; [done|]. by rewrite Hp'.
  - apply Hsame. unfold processNextWorkItem, Get in Hstep. simpl in Hstep.
    destruct (workqueue.Get (queue c)) as [[[k quit] w]|] eqn:Hget; [|done].
    destruct quit.
    + simpl in Hstep. by injection Hstep as <-.
    + destruct (processNextWorkItem_turn c k w Hget)
        as (c2 & l & Hrun & _ & _ & _ & _ & _ & _ & _ & Hcq).
      unfold processNextWorkItem, Get in Hrun. simpl in Hrun.
      rewrite Hget in Hrun. rewrite Hrun in Hstep. simpl in Hstep.
      by injection Hstep as <-.
  - unfold processNextClusterWorkItem, Get in Hstep. simpl in Hstep.
    destruct (workqueue.Get (clusterQueue c)) as [[[k quit] w]|] eqn:Hget; [|done].
    destruct quit.
    + simpl in Hstep. injection Hstep as <-. simpl.
      rewrite (Get_quit _ _ _ Hget). done.
    + destruct (wellFormed_Get _ _ _ Hget Hwf) as (Hwf' & _ & Hsub).
      destruct (processNextClusterWorkItem_turn c k w Hget) as (c2 & Hrun & Hk).
      unfold processNextClusterWorkItem, Get in Hrun. simpl in Hrun.
      rewrite Hget in Hrun. rewrite Hrun in Hstep. simpl in Hstep.
      injection Hstep as <-.
      split; [by apply (wellFormed_sameKeys _ _ Hk)|].
      destruct Hk as (_ & _ & ->). done.
  - injection Hstep as <-. done.
Qed.

Lemma run_topology (evs : list Event) :
  ∀ c c' : Controller,
    run evs c = Some c' → wellFormed (clusterQueue c) →
    wellFormed (clusterQueue c')
    ∧ workqueue.processing (clusterQueue c) ⊆ workqueue.processing (clusterQueue c').
Proof.
  induction evs as [|ev evs IH]; intros c c' Hrun Hwf; simpl in Hrun.
  { by injection Hrun as <-. }
  destruct (step ev c) as [c1|] eqn:Hstep; [|done].
  destruct (step_topology ev c c1 Hstep Hwf) as [Hwf1 Hsub1].
  destruct (IH c1 c' Hrun Hwf1) as [Hwf' Hsub'].
  split; [done|]. by etrans.
Qed.

(** X11: in every run of the controller from its start, a key that the worker of
    the topology queue has been handed stays in that queue's processing set
    for good and is never pending again, whatever happens afterwards: each
    topology site is acted on at most once. *)
Theorem topology_key_is_handed_out_once (cache : gmap string Deployment)
  (evs evs' : list Event) (c c' : Controller) (key : string) :
  run evs (NewController cache) = Some c →
  head (workqueue.items (clusterQueue c)) = Some key →
  run (ClusterWorkerTurn :: evs') c = Some c' →
  key ∈ workqueue.processing (clusterQueue c')
  ∧ (key ∉ workqueue.items (clusterQueue c'))
  ∧ head (workqueue.items (clusterQueue c')) ≠ Some key.
Proof.
  intros Hrun Hhead Hrun'.
  destruct (run_topology evs _ _ Hrun wellFormed_New) as [Hwf _].
  simpl in Hrun'.
  destruct (processNextClusterWorkItem c) as [[b c1]|] eqn:Hturn; [|done].
  simpl in Hrun'.
  destruct (workqueue.items (clusterQueue c)) as [|k rest] eqn:Hi; [done|].
  injection Hhead as ->.
  assert (Hget : workqueue.Get (clusterQueue c)
                 = Some (key, false,
                         {| workqueue.items := rest;
                            workqueue.dirty := workqueue.dirty (clusterQueue c) ∖ {[key]};
                            workqueue.processing :=
                              {[key]} ∪ workqueue.processing (clusterQueue c);
                            workqueue.waiting := workqueue.waiting (clusterQueue c);
                            workqueue.failures := workqueue.failures (clusterQueue c);
                            workqueue.shuttingDown :=
                              workqueue.shuttingDown (clusterQueue c) |})).
  { unfold workqueue.Get. by rewrite Hi. }
  destruct (wellFormed_Get _ _ _ Hget Hwf) as (Hwf1 & Hin1 & _).
  destruct (processNextClusterWorkItem_turn c key _ Hget) as (c2 & Hturn2 & Hk).
  rewrite Hturn in Hturn2. injection Hturn2 as -> ->.
  assert (Hwf2 : wellFormed (clusterQueue c2)) by (by apply (wellFormed_sameKeys _ _ Hk)).
  assert (Hin2 : key ∈ workqueue.processing (clusterQueue c2)).
  { destruct Hk as (_ & _ & ->). done. }
  destruct (run_topology evs' _ _ Hrun' Hwf2) as [[Hnd' Hwf'] Hsub'].
  assert (Hp : key ∈ workqueue.processing (clusterQueue c')) by (by apply Hsub').
  assert (Hni : key ∉ workqueue.items (clusterQueue c')).
  { intros Hk'. by destruct (Hwf' key Hk'). }
  split; [done|]. split; [done|].
  intros Hh. apply Hni.
  destruct (workqueue.items (clusterQueue c')); [done|].
  injection Hh as ->. by left.
Qed.

(** ** The exits of the worker loops and the way back of a failed key *)

(** X12: on an empty queue a worker does not reach its handler: while the queue
    is open its [Get] blocks, and once the queue is shut down the worker
    returns false, which ends its loop, having issued nothing but the
    [Get]; this holds for the workers of both queues. *)
Theorem workers_on_empty_queue (c : Controller) :
  workqueue.items (queue c) = [] →
  workqueue.items (clusterQueue c) = [] →
  processNextWorkItem c
  = (if workqueue.shuttingDown (queue c) then Some (false, record (QGet Primary) c)
     else None)
  ∧ processNextClusterWorkItem c
    = (if workqueue.shuttingDown (clusterQueue c)
       then Some (false, record (QGet Topology) c)
       else None).
Proof.
  intros Hi Hci. split.
  - unfold processNextWorkItem, Get, workqueue.Get. simpl. rewrite Hi.
    destruct (workqueue.shuttingDown (queue c)); [|done]. by destruct c.
  - unfold processNextClusterWorkItem, Get, workqueue.Get. simpl. rewrite Hci.
    destruct (workqueue.shuttingDown (clusterQueue c)); [|done]. by destruct c.
Qed.

(** X13: a failed pass below the retry budget brings the key back: when
    [process] fails for the key the worker was handed (here because the
    lookup in the cache fails), the turn leaves the key neither pending nor
    in processing but waiting, its counter raised by one, and once the
    delay has run the key is pending again, behind the keys that were
    pending before. *)
Theorem failed_key_returns_after_its_delay (c : Controller) (key : string)
  (rest : list string) (e : error) :
  getByKeyErr key = Some e →
  workqueue.items (queue c) = key :: rest →
  workqueue.waiting (queue c) = [] →
  workqueue.shuttingDown (queue c) = false →
  workqueue.NumRequeues key (queue c) < 5 →
  ∃ c', processNextWorkItem c = Some (true, c')
        ∧ issued c c'
          = [QGet Primary; QNumRequeues Primary key; QAddRateLimited Primary key;
             QDone Primary key]
        ∧ workqueue.items (queue c') = rest
        ∧ workqueue.waiting (queue c') = [key]
        ∧ workqueue.NumRequeues key (queue c') = S (workqueue.NumRequeues key (queue c))
        ∧ workqueue.items (queue (delaysElapse Primary c')) = rest ++ [key]
        ∧ workqueue.waiting (queue (delaysElapse Primary c')) = [].
Proof.
  intros Hg Hi Hw Hs Hn.
  destruct (workqueue.Get (queue c)) as [[[k quit] w]|] eqn:Hget;
    unfold workqueue.Get in Hget; rewrite Hi in Hget; [|done].
  injection Hget as <- <- Hw'.
  assert (Hget : workqueue.Get (queue c) = Some (key, false, w)).
  { unfold workqueue.Get. by rewrite Hi, Hw'. }
  destruct (processNextWorkItem_turn c key w Hget) as (c' & l & Hrun & _).
  exists c'. split; [done|].
  pose (c1 := record (QGet Primary) (setQueue Primary w c)).
  pose (c3 := exec (handleErr (Some e) key Primary) c1).
  assert (Hc' : c' = exec (Done Primary key) c3).
  { unfold processNextWorkItem, Get in Hrun. simpl in Hrun. rewrite Hget in Hrun.
    rewrite run_bind in Hrun. unfold result at 1, exec at 1 in Hrun.
    rewrite !(process_get_failed key _ e Hg) in Hrun. simpl in Hrun.
    rewrite !run_bind in Hrun. by injection Hrun as <-. }
  subst c'.
  destruct (handleErr_retries e key Primary c1) as [Ht3 Hq3].
  { unfold c1. simpl. rewrite <- Hw'. done. }
  fold c3 in Ht3, Hq3. simpl in Hq3.
  assert (Hq4 : queue (exec (Done Primary key) c3)
                = workqueue.Done key (workqueue.AddRateLimited key w)).
  { unfold exec, Done, modify. simpl. by rewrite Hq3. }
  assert (Hnd4 : key ∉ workqueue.dirty (queue c) ∖ {[key]}).
  { apply not_elem_of_difference. right. by apply elem_of_singleton. }
  split.
  { apply issued_app. unfold exec at 1, Done, modify. simpl. rewrite Ht3.
    unfold c1. simpl. by rewrite <- !app_assoc. }
  unfold delaysElapse, getQueue, setQueue. cbn [queue]. rewrite Hq4. rewrite <- Hw'.
  unfold workqueue.Done, workqueue.AddRateLimited, workqueue.NumRequeues. simpl.
  rewrite (bool_decide_eq_false_2 _ Hnd4), Hs, Hw, lookup_insert_eq. simpl.
  do 3 (split; [done|]).
  unfold workqueue.delayElapsed, workqueue.Add. simpl.
  rewrite (bool_decide_eq_false_2 _ Hnd4).
  rewrite bool_decide_eq_false_2; [done|].
  intros [_ Hk]%elem_of_difference. apply Hk. by apply elem_of_singleton.
Qed.

End further_properties.

Lemma process_reconcile_failure_witness :
  result (process (wiring := failsAfterChange) "default/x") (NewController cacheX)
  = Some (Err "boom")
  ∧ issued (NewController cacheX)
      (exec (process (wiring := failsAfterChange) "default/x") (NewController cacheX))
    = []
  ∧ indexer (exec (process (wiring := failsAfterChange) "default/x")
               (NewController cacheX)) !! "default/x"
    = Some (reconcile (Collaborators := failsAfterChange) x).1.
Proof.
  apply (process_reconcile_failure (wiring := failsAfterChange)); reflexivity.
Defined.

Lemma process_does_not_repeat_Update_witness :
  result (process (wiring := updateRefused) "default/x") (NewController cacheX)
  = updateErr (Collaborators := updateRefused)
      (reconcile (Collaborators := updateRefused) x).1
  ∧ issued (NewController cacheX)
      (exec (process (wiring := updateRefused) "default/x") (NewController cacheX))
    = [Update (Namespace (Metadata (reconcile (Collaborators := updateRefused) x).1))
         (reconcile (Collaborators := updateRefused) x).1]
  ∧ result (process (wiring := updateRefused) "default/x")
      (exec (process (wiring := updateRefused) "default/x") (NewController cacheX))
    = None
  ∧ issued
      (exec (process (wiring := updateRefused) "default/x") (NewController cacheX))
      (exec (process (wiring := updateRefused) "default/x")
         (exec (process (wiring := updateRefused) "default/x") (NewController cacheX)))
    = [].
Proof.
  apply (process_does_not_repeat_Update (wiring := updateRefused) _ _ x); reflexivity.
Defined.

Lemma notification_without_key_is_dropped_witness :
  exec (enqueue (ObjTombstone "c1")) (NewController cacheX)
  = record (HandleError (Err "object has no meta")) (NewController cacheX)
  ∧ exec (enqueueCluster (ObjTombstone "c1")) (NewController cacheX)
    = record (HandleError (Err "object has no meta")) (NewController cacheX)
  ∧ exec (notify clusterHandlers (OnAdd (ObjTombstone "c1"))) (NewController cacheX)
    = record (HandleError (Err "object has no meta")) (NewController cacheX)
  ∧ exec (notify clusterHandlers (OnUpdate (ObjCluster (cluster "c1")) (ObjTombstone "c1")))
      (NewController cacheX)
    = record (HandleError (Err "object has no meta")) (NewController cacheX)
  ∧ exec (notify clusterHandlers (OnDelete (ObjTombstone "c1"))) (NewController cacheX)
    = record (HandleError (Err "object has no meta")) (NewController cacheX)
  ∧ exec (notify deploymentHandlers (OnAdd (ObjTombstone "c1"))) (NewController cacheX)
    = record (HandleError (Err "object has no meta")) (NewController cacheX)
  ∧ exec (notify deploymentHandlers
            (OnUpdate (ObjCluster (cluster "c1")) (ObjTombstone "c1")))
      (NewController cacheX)
    = record (HandleError (Err "object has no meta")) (NewController cacheX).
Proof.
  apply (notification_without_key_is_dropped (ObjTombstone "c1")). reflexivity.
Defined.

Lemma enqueues_spend_the_retry_budget_witness :
  workqueue.NumRequeues "default/x"
    (queue (Nat.iter 5 (exec (enqueue (ObjDeployment x))) (NewController cacheX)))
  = workqueue.NumRequeues "default/x" (queue (NewController cacheX)) + 5
  ∧ issued (Nat.iter 5 (exec (enqueue (ObjDeployment x))) (NewController cacheX))
      (exec (handleErr (Some (Err "boom")) "default/x" Primary)
         (Nat.iter 5 (exec (enqueue (ObjDeployment x))) (NewController cacheX)))
    = [QNumRequeues Primary "default/x"; QForget Primary "default/x";
       HandleError (Err "boom")].
Proof.
  apply (enqueues_spend_the_retry_budget (ObjDeployment x)); [reflexivity|lia].
Defined.

Lemma primary_worker_pairs_Get_and_Done_witness :
  ∃ c', processNextWorkItem (wiring := steady) (primaryPending cacheX) = Some (true, c')
        ∧ doneOn Primary (issued (primaryPending cacheX) c') = ["default/x"]
        ∧ doneOn Topology (issued (primaryPending cacheX) c') = []
        ∧ last (issued (primaryPending cacheX) c') = Some (QDone Primary "default/x")
        ∧ ("default/x" ∉ workqueue.processing (queue c'))
        ∧ clusterQueue c' = clusterQueue (primaryPending cacheX).
Proof.
  apply (primary_worker_pairs_Get_and_Done (wiring := steady) (primaryPending cacheX)
           "default/x" (afterGet (queue (primaryPending cacheX)))).
  reflexivity.
Defined.

Lemma worker_drains_after_shutdown_witness :
  doneOn Primary
    (issued (Start_stopped (primaryPending cacheX))
       (startWorker (wiring := steady) 5 (Start_stopped (primaryPending cacheX))))
  = workqueue.items (queue (Start_stopped (primaryPending cacheX)))
  ∧ count (isGetOn Primary)
      (issued (Start_stopped (primaryPending cacheX))
         (startWorker (wiring := steady) 5 (Start_stopped (primaryPending cacheX))))
    = S (length (workqueue.items (queue (Start_stopped (primaryPending cacheX)))))
  ∧ workqueue.items
      (queue (startWorker (wiring := steady) 5 (Start_stopped (primaryPending cacheX))))
    = [].
Proof.
  apply (worker_drains_after_shutdown (wiring := steady)); [reflexivity|vm_compute; lia].
Defined.

Lemma topology_key_is_handed_out_once_witness :
  "c1" ∈ workqueue.processing
           (clusterQueue
              (after (wiring := steady) (ClusterWorkerTurn :: clusterChanges)
                 (after (wiring := steady) clusterArrives (NewController cacheABC))))
  ∧ ("c1" ∉ workqueue.items
              (clusterQueue
                 (after (wiring := steady) (ClusterWorkerTurn :: clusterChanges)
                    (after (wiring := steady) clusterArrives (NewController cacheABC)))))
  ∧ head (workqueue.items
            (clusterQueue
               (after (wiring := steady) (ClusterWorkerTurn :: clusterChanges)
                  (after (wiring := steady) clusterArrives (NewController cacheABC)))))
    ≠ Some "c1".
Proof.
  apply (topology_key_is_handed_out_once (wiring := steady) cacheABC
           clusterArrives clusterChanges
           (after (wiring := steady) clusterArrives (NewController cacheABC)));
    vm_compute; reflexivity.
Defined.

Lemma failed_key_returns_after_its_delay_witness :
  ∃ c', processNextWorkItem (wiring := lookupFails) (primaryPending cacheX)
        = Some (true, c')
        ∧ issued (primaryPending cacheX) c'
          = [QGet Primary; QNumRequeues Primary "default/x";
             QAddRateLimited Primary "default/x"; QDone Primary "default/x"]
        ∧ workqueue.items (queue c') = []
        ∧ workqueue.waiting (queue c') = ["default/x"]
        ∧ workqueue.NumRequeues "default/x" (queue c')
          = S (workqueue.NumRequeues "default/x" (queue (primaryPending cacheX)))
        ∧ workqueue.items (queue (delaysElapse Primary c')) = [] ++ ["default/x"]
        ∧ workqueue.waiting (queue (delaysElapse Primary c')) = [].
Proof.
  apply (failed_key_returns_after_its_delay (wiring := lookupFails)
           (primaryPending cacheX) "default/x" [] (Err "cache"));
    try reflexivity.
  vm_compute. lia.
Defined.

Lemma workers_on_empty_queue_witness :
  processNextWorkItem (wiring := steady) (Start_stopped (NewController cacheX))
  = (if workqueue.shuttingDown (queue (Start_stopped (NewController cacheX)))
     then Some (false, record (QGet Primary) (Start_stopped (NewController cacheX)))
     else None)
  ∧ processNextClusterWorkItem (wiring := steady) (Start_stopped (NewController cacheX))
    = (if workqueue.shuttingDown (clusterQueue (Start_stopped (NewController cacheX)))
       then Some (false, record (QGet Topology) (Start_stopped (NewController cacheX)))
       else None).
Proof.
  apply (workers_on_empty_queue (wiring := steady)); reflexivity.
Defined.
